(** * gitworth: the score calculator and the profile endpoint of [app.py]

    A shallow embedding of [app.py] (Flask application "gitworth") and the
    properties of its specification.

    - Python integers are [Z]; Python floats are IEEE-754 binary64 values,
      represented by the Standard Library's [spec_float] and rounded by its
      [SFdiv] and [SFmul] (precision 53, maximal exponent 1024).
    - Parsed JSON documents are values of [json]; JSON numbers are integers
      (the counts of the upstream API), fractional numbers are not
      represented.  The body of an upstream response parses to such a
      document or makes [Response.json()] raise.
    - Exceptions are values of [exn] carried by [result]; the request handler
      runs in a state monad over [world], which holds the upstream double, the
      log of outbound GET calls, the clock and the cache store.  *)

From Stdlib Require Import ZArith Lia List String Ascii Bool.
From Stdlib Require Import Floats.SpecFloat.
From stdpp Require Import base gmap strings.

#[local] Set Warnings "-register-all".
Local Open Scope Z_scope.

(** ** Exceptions and results *)

Inductive exn :=
| TypeError
| AttributeError
| OverflowError
| ZeroDivisionError
| RequestException (description : string).

Inductive result (A : Type) :=
| Ok (a : A)
| Raise (e : exn).
Arguments Ok {A} a.
Arguments Raise {A} e.

Definition rbind {A B} (r : result A) (k : A -> result B) : result B :=
  match r with
  | Ok a => k a
  | Raise e => Raise e
  end.

Declare Scope result_scope.
Delimit Scope result_scope with result.
Notation "'let?' x ':=' c 'in' k" := (rbind c (fun x => k))
  (at level 10, x name, c at level 200, k at level 200) : result_scope.

(** ** Binary64 arithmetic as Python uses it *)

Module Binary64.

Definition prec : Z := 53.
Definition emax : Z := 1024.

(** An integer as an exact, unrounded significand with exponent 0. *)
Definition exact_int (n : Z) : spec_float :=
  match n with
  | Z0 => S754_zero false
  | Zpos p => S754_finite false p 0
  | Zneg p => S754_finite true p 0
  end.

(** [int / int]: the binary64 value nearest to the exact quotient, ties to
    even; a quotient too large for a float raises [OverflowError].  The
    library's division is applied to the two integers as exact significands,
    so the quotient is rounded once ([RoundingFacts.SFdiv_model]). *)
Definition int_truediv (a b : Z) : result spec_float :=
  if b =? 0 then Raise ZeroDivisionError
  else match SFdiv prec emax (exact_int a) (exact_int b) with
       | S754_infinity _ => Raise OverflowError
       | q => Ok q
       end.

(** The same quotient in plain IEEE arithmetic: overflow gives an infinity. *)
Definition ieee_div_int (a b : Z) : spec_float :=
  SFdiv prec emax (exact_int a) (exact_int b).

(** [float(100)]. *)
Definition hundred : spec_float :=
  Eval vm_compute in binary_normalize prec emax 100 0 false.

Definition float_mul (x y : spec_float) : spec_float := SFmul prec emax x y.
Definition float_lt (x y : spec_float) : bool := SFltb x y.
Definition float_le (x y : spec_float) : bool := SFleb x y.

(** Quotient [n / d] rounded to the nearest integer, ties to even
    ([0 <= n], [0 < d]). *)
Definition round_half_even (n d : Z) : Z :=
  let q := n / d in
  match 2 * (n mod d) ?= d with
  | Lt => q
  | Gt => q + 1
  | Eq => if Z.even q then q else q + 1
  end.

(** [|x| * 100] rounded to an integer, ties to even, on the exact value. *)
Definition scaled_hundredths (m : positive) (e : Z) : Z :=
  match e with
  | Zneg k => round_half_even (Zpos m * 100) (Z.pow_pos 2 k)
  | _ => Zpos m * 100 * 2 ^ e
  end.

(** [float.__round__(x, 2)]: the decimal with two fractional digits nearest
    to the exact value of [x] (ties to even), converted back to the nearest
    float; infinities and NaN round to themselves. *)
Definition round2 (x : spec_float) : spec_float :=
  match x with
  | S754_finite s m e =>
      match scaled_hundredths m e with
      | Zpos q => SFdiv prec emax (S754_finite s q 0) (S754_finite false 100 0)
      | _ => S754_zero s
      end
  | _ => x
  end.

End Binary64.

(** ** Python numbers returned by the calculator *)

Inductive pynum :=
| PInt (z : Z)
| PFloat (f : spec_float).

(** [min(100, x)] for a float [x]: the second argument replaces the first
    only when it is strictly smaller. *)
Definition py_min_100 (x : spec_float) : pynum :=
  if Binary64.float_lt x Binary64.hundred then PFloat x else PInt 100.

(** [round(v, 2)]. *)
Definition py_round_2 (v : pynum) : pynum :=
  match v with
  | PInt z => PInt z
  | PFloat f => PFloat (Binary64.round2 f)
  end.

(** ** Parsed JSON and the dynamic operations applied to it *)

Inductive json :=
| JNull
| JBool (b : bool)
| JInt (z : Z)
| JStr (s : string)
| JArr (items : list json)
| JObj (fields : list (string * json)).

Fixpoint assoc_get (fields : list (string * json)) (key : string) : option json :=
  match fields with
  | [] => None
  | (k, v) :: rest => if String.eqb k key then Some v else assoc_get rest key
  end.

(** [d.get(key, default)]; only a dict has the method. *)
Definition py_get (d : json) (key : string) (default : json) : result json :=
  match d with
  | JObj fields =>
      Ok match assoc_get fields key with
         | Some v => v
         | None => default
         end
  | _ => Raise AttributeError
  end.

(** [d.get(key)], with the default [None]. *)
Definition py_get_none (d : json) (key : string) : result json :=
  py_get d key JNull.

Definition chars_of (s : string) : list json :=
  map (fun c => JStr (String c EmptyString)) (list_ascii_of_string s).

(** Iteration: over the items of a list, the keys of a dict, the characters
    of a string. *)
Definition py_iter (v : json) : result (list json) :=
  match v with
  | JArr items => Ok items
  | JObj fields => Ok (map (fun kv => JStr (fst kv)) fields)
  | JStr s => Ok (chars_of s)
  | _ => Raise TypeError
  end.

Fixpoint str_repeat (s : string) (n : nat) : string :=
  match n with
  | O => EmptyString
  | S k => String.append s (str_repeat s k)
  end.

Fixpoint list_repeat (l : list json) (n : nat) : list json :=
  match n with
  | O => []
  | S k => l ++ list_repeat l k
  end.

(** [v * n] for an integer literal [n]. *)
Definition py_mul (v : json) (n : Z) : result json :=
  match v with
  | JInt z => Ok (JInt (z * n))
  | JBool b => Ok (JInt (Z.b2z b * n))
  | JStr s => Ok (JStr (str_repeat s (Z.to_nat n)))
  | JArr l => Ok (JArr (list_repeat l (Z.to_nat n)))
  | JNull | JObj _ => Raise TypeError
  end.

(** [v + w]. *)
Definition py_add (v w : json) : result json :=
  match v, w with
  | JInt a, JInt b => Ok (JInt (a + b))
  | JInt a, JBool b => Ok (JInt (a + Z.b2z b))
  | JBool a, JInt b => Ok (JInt (Z.b2z a + b))
  | JBool a, JBool b => Ok (JInt (Z.b2z a + Z.b2z b))
  | JStr a, JStr b => Ok (JStr (String.append a b))
  | JArr a, JArr b => Ok (JArr (a ++ b))
  | _, _ => Raise TypeError
  end.

(** [v / n] for an integer [n]. *)
Definition py_truediv (v : json) (n : Z) : result spec_float :=
  match v with
  | JInt z => Binary64.int_truediv z n
  | JBool b => Binary64.int_truediv (Z.b2z b) n
  | _ => Raise TypeError
  end.

(** One step of [sum]: the accumulator is an integer. *)
Definition sum_step (key : string) (acc : result Z) (repo : json) : result Z :=
  (let? a := acc in
   let? v := py_get repo key (JInt 0) in
   match v with
   | JInt z => Ok (a + z)
   | JBool b => Ok (a + Z.b2z b)
   | _ => Raise TypeError
   end)%result.

(** [sum(repo.get(key, 0) for repo in repos_data)]. *)
Definition sum_field (repos_data : json) (key : string) : result Z :=
  (let? repos := py_iter repos_data in
   fold_left (sum_step key) repos (Ok 0))%result.

(** ** The score calculator *)

Definition MAX_POSSIBLE_SCORE : Z := 10000.

(** The normalisation and rounding of a raw score (lines 35 and 37). *)
Definition normalize (raw_score : json) : result pynum :=
  (let? q := py_truediv raw_score MAX_POSSIBLE_SCORE in
   let normalized_score := py_min_100 (Binary64.float_mul q Binary64.hundred) in
   Ok (py_round_2 normalized_score))%result.

Definition calculate_gitworth (profile_data repos_data : json) : result pynum :=
  (let? followers := py_get profile_data "followers" (JInt 0) in
   let? public_repos := py_get profile_data "public_repos" (JInt 0) in
   let? stars := sum_field repos_data "stargazers_count" in
   let? forks := sum_field repos_data "forks_count" in
   let? t1 := py_mul followers 3 in
   let? t2 := py_mul public_repos 2 in
   let? s12 := py_add t1 t2 in
   let? s123 := py_add s12 (JInt (stars * 4)) in
   let? raw_score := py_add s123 (JInt (forks * 1)) in
   normalize raw_score)%result.

(** ** Upstream, the clock and the cache *)

(** What a body is to [Response.json()]: a document, or text that does not
    parse, with the description of the parse error. *)
Inductive parse :=
| Document (doc : json)
| Malformed (description : string).

(** A [requests.Response]: [status_code] and the body. *)
Record response := {
  status_code : Z;
  content : parse
}.

(** [response.json()]: the parsed document, or
    [requests.exceptions.JSONDecodeError], which is a [RequestException]
    (requests 2.27 and later). *)
Definition json_of (r : response) : result json :=
  match content r with
  | Document doc => Ok doc
  | Malformed description => Raise (RequestException description)
  end.

(** What [requests.get] does: it returns a response, or raises a
    [RequestException] whose [str] is the description. *)
Inductive outcome :=
| Responded (r : response)
| Failed (description : string).

(** The payload of a success reply, in the order of the dict literal. *)
Record profile_summary := {
  username : json;
  name : json;
  followers : json;
  public_repos : json;
  stars_received : Z;
  forks_received : Z;
  gitworth_score : pynum
}.

Inductive reply_body :=
| Summary (p : profile_summary)
| ErrorRecord (error : string)
| InternalServerError.

(** What a view returns: [jsonify(...)] alone has status 200. *)
Record reply := {
  body : reply_body;
  status : Z
}.

(** [upstream n url] is the outcome of the GET to [url] issued after [n]
    earlier GET calls; [calls] logs the URLs requested so far; [cache_store]
    maps a key to its expiry time and value. *)
Record world := {
  upstream : nat -> string -> outcome;
  calls : list string;
  now : Z;
  cache_store : gmap string (Z * reply)
}.

Definition M (A : Type) : Type := world -> result A * world.

Definition ret {A} (a : A) : M A := fun w => (Ok a, w).

Definition bind {A B} (c : M A) (k : A -> M B) : M B :=
  fun w => match c w with
           | (Ok a, w') => k a w'
           | (Raise e, w') => (Raise e, w')
           end.

Definition lift {A} (r : result A) : M A := fun w => (r, w).

(** [try: c except requests.exceptions.RequestException as e: h e]. *)
Definition try_except {A} (c : M A) (h : string -> M A) : M A :=
  fun w => match c w with
           | (Raise (RequestException d), w') => h d w'
           | other => other
           end.

Declare Scope m_scope.
Delimit Scope m_scope with M.
Notation "'let*' x ':=' c 'in' k" := (bind c (fun x => k))
  (at level 10, x name, c at level 200, k at level 200) : m_scope.

Definition requests_get (url : string) : M response :=
  fun w =>
    let w' := {| upstream := upstream w; calls := calls w ++ [url];
                 now := now w; cache_store := cache_store w |} in
    match upstream w (length (calls w)) url with
    | Responded r => (Ok r, w')
    | Failed d => (Raise (RequestException d), w')
    end.

(** ** Configuration *)

(** [GITHUB_API_URL] and the two parts of [GITHUB_REPOS_URL] around its
    placeholder. *)
Record config := {
  GITHUB_API_URL : string;
  GITHUB_REPOS_URL : string * string
}.

Definition default_config : config := {|
  GITHUB_API_URL := "https://api.github.com/users/";
  GITHUB_REPOS_URL := ("https://api.github.com/users/", "/repos")
|}.

Definition profile_url (cfg : config) (user : string) : string :=
  String.append (GITHUB_API_URL cfg) user.

(** [GITHUB_REPOS_URL.format(username)]. *)
Definition repos_url (cfg : config) (user : string) : string :=
  String.append (fst (GITHUB_REPOS_URL cfg))
    (String.append user (snd (GITHUB_REPOS_URL cfg))).

(** ** The request handler *)

Definition rate_limit_message : string :=
  "GitHub API rate limit exceeded. Try again later.".

Definition jsonify_error (msg : string) (code : Z) : reply :=
  {| body := ErrorRecord msg; status := code |}.

(** The success branch on the two parsed documents (lines 50 to 61). *)
Definition summarize (profile_data repos_data : json) : result reply :=
  (let? score := calculate_gitworth profile_data repos_data in
   let? login := py_get_none profile_data "login" in
   let? nm := py_get_none profile_data "name" in
   let? fl := py_get_none profile_data "followers" in
   let? pr := py_get_none profile_data "public_repos" in
   let? stars := sum_field repos_data "stargazers_count" in
   let? forks := sum_field repos_data "forks_count" in
   Ok {| body := Summary {| username := login; name := nm; followers := fl;
                            public_repos := pr; stars_received := stars;
                            forks_received := forks; gitworth_score := score |};
         status := 200 |})%result.

(** The success branch (lines 47 to 61): the two bodies are parsed, the
    profile body first. *)
Definition success_branch (profile_response repos_response : response)
  : result reply :=
  (let? profile_data := json_of profile_response in
   let? repos_data := json_of repos_response in
   summarize profile_data repos_data)%result.

(** The function [get_profile] as written, before any decorator. *)
Definition get_profile (cfg : config) (user : string) : M reply :=
  try_except
    (let* profile_response := requests_get (profile_url cfg user) in
     let* repos_response := requests_get (repos_url cfg user) in
     if (status_code profile_response =? 200) && (status_code repos_response =? 200)
     then lift (success_branch profile_response repos_response)
     else if status_code profile_response =? 403
     then ret (jsonify_error rate_limit_message 403)
     else ret (jsonify_error "User not found" 404))%M
    (fun e => ret (jsonify_error e 500)).

(** ** Decorators and dispatch *)

Definition view : Type := string -> M reply.

(** The application's table from endpoint names to view functions. *)
Record flask_app := {
  view_functions : list (string * view)
}.

Definition empty_app : flask_app := {| view_functions := [] |}.

(** [app.route(rule)] applied to [f] under the endpoint name [endpoint]
    (the function's name): it registers [f] and returns [f] itself. *)
Definition route (endpoint : string) (f : view) (app : flask_app)
  : flask_app * view :=
  ({| view_functions := (endpoint, f) :: view_functions app |}, f).

Definition cache_get (key : string) : M (option reply) :=
  fun w => (Ok match cache_store w !! key with
               | Some (expires, value) =>
                   if now w <? expires then Some value else None
               | None => None
               end, w).

Definition cache_set (key : string) (value : reply) (timeout : Z) : M unit :=
  fun w => (Ok tt,
            {| upstream := upstream w; calls := calls w; now := now w;
               cache_store := <[key := (now w + timeout, value)]> (cache_store w) |}).

(** [cache.memoize(timeout)] applied to [f]: a new function that consults
    the cache and calls [f] on a miss. *)
Definition memoize (timeout : Z) (f : view) : view :=
  fun user =>
    (let* hit := cache_get user in
     match hit with
     | Some rv => ret rv
     | None =>
         let* rv := f user in
         let* _ := cache_set user rv timeout in
         ret rv
     end)%M.

(** The module body: [app.route] is applied first, [cache.memoize] second;
    the module-level name is bound to the function [memoize] returns. *)
Definition module_body (cfg : config) : flask_app * view :=
  let '(app, registered) := route "get_profile" (get_profile cfg) empty_app in
  (app, memoize 300 registered).

Definition app (cfg : config) : flask_app := fst (module_body cfg).
Definition get_profile_memoized (cfg : config) : view := snd (module_body cfg).

Fixpoint find_view (table : list (string * view)) (endpoint : string) : option view :=
  match table with
  | [] => None
  | (k, f) :: rest => if String.eqb k endpoint then Some f else find_view rest endpoint
  end.

(** [GET /profile/<user>]: the registered view function is called; an
    exception that escapes it becomes a 500 reply. *)
Definition handle_request (a : flask_app) (user : string) : world -> reply * world :=
  fun w =>
    match find_view (view_functions a) "get_profile" with
    | Some f =>
        match f user w with
        | (Ok r, w') => (r, w')
        | (Raise _, w') => ({| body := InternalServerError; status := 500 |}, w')
        end
    | None => ({| body := ErrorRecord "Not Found"; status := 404 |}, w)
    end.

Definition at_time (t : Z) (w : world) : world :=
  {| upstream := upstream w; calls := calls w; now := t;
     cache_store := cache_store w |}.

(** ** Worlds used as concrete inputs *)

Definition fresh_world (f : nat -> string -> outcome) : world :=
  {| upstream := f; calls := []; now := 0; cache_store := ∅ |}.

(** An upstream that answers the profile GET (the first call) with one
    response and every later GET with another. *)
Definition two_responses (rp rr : response) : nat -> string -> outcome :=
  fun n _ => match n with
             | O => Responded rp
             | S _ => Responded rr
             end.

(** Both outbound calls of a request issued in [w] return a response. *)
Definition both_respond (cfg : config) (user : string) (w : world)
    (rp rr : response) : Prop :=
  upstream w (length (calls w)) (profile_url cfg user) = Responded rp /\
  upstream w (S (length (calls w))) (repos_url cfg user) = Responded rr.

(** One of the two outbound calls fails before any status is obtained. *)
Definition transport_failure (cfg : config) (user : string) (w : world)
    (d : string) : Prop :=
  upstream w (length (calls w)) (profile_url cfg user) = Failed d \/
  exists rp,
    upstream w (length (calls w)) (profile_url cfg user) = Responded rp /\
    upstream w (S (length (calls w))) (repos_url cfg user) = Failed d.

Definition is_success (code : Z) : bool := (200 <=? code) && (code <? 300).


(** What [try ... except RequestException] makes of a result. *)
Definition caught (r : result reply) : result reply :=
  match r with
  | Raise (RequestException d) => Ok (jsonify_error d 500)
  | other => other
  end.

(** ** Concrete requests *)

Definition octocat_profile : json :=
  JObj [("login", JStr "octocat"); ("name", JStr "The Octocat");
        ("followers", JInt 100); ("public_repos", JInt 20)].

Definition octocat_repos : json :=
  JArr [JObj [("stargazers_count", JInt 50); ("forks_count", JInt 10)];
        JObj [("stargazers_count", JInt 25); ("forks_count", JInt 5)]].

Definition ok_response (doc : json) : response :=
  {| status_code := 200; content := Document doc |}.

Definition status_response (code : Z) : response :=
  {| status_code := code; content := Document (JObj []) |}.

(** An upstream serving the two documents of "octocat" at the default URLs. *)
Definition octocat_upstream : nat -> string -> outcome :=
  fun _ url =>
    if String.eqb url (repos_url default_config "octocat")
    then Responded (ok_response octocat_repos)
    else Responded (ok_response octocat_profile).

(** A profile document with a null follower count, and one without counts. *)
Definition null_followers_profile : json :=
  JObj [("login", JStr "octocat"); ("followers", JNull)].

Definition sparse_profile : json := JObj [("login", JStr "octocat")].

(** ** A closed form of binary64 rounding *)

Module Rounding.

Import Binary64.

(** Where [n / d] lies between [n / d] rounded down and the next integer. *)
Definition loc_of (n d : Z) : location :=
  let r := n mod d in
  if r =? 0 then loc_Exact else loc_Inexact (2 * r ?= d).

Definition rec_of (n d : Z) : shr_record :=
  shr_record_of_loc (n / d) (loc_of n d).

(** The number of low bits dropped from a significand [mx] at exponent [ex]. *)
Definition shift_of (mx ex : Z) : Z :=
  Z.max 0 (Z.max (Zdigits2 mx - 53) (-1074 - ex)).

(** A rounded significand [m] at exponent [e] as a float: a carry into bit
    53 moves to the next exponent, an exponent above 971 overflows. *)
Definition pack (s : bool) (m e : Z) : spec_float :=
  match m with
  | Z0 => S754_zero s
  | Zpos p =>
      if m =? 2 ^ 53
      then (if e + 1 <=? 971 then S754_finite s (2 ^ 52)%positive (e + 1)
            else S754_infinity s)
      else (if e <=? 971 then S754_finite s p e else S754_infinity s)
  | Zneg _ => S754_nan
  end.

(** The float nearest to [(n / d) * 2 ^ ex], ties to even. *)
Definition round_model (s : bool) (n d ex : Z) : spec_float :=
  let k := shift_of (n / d) ex in
  pack s (round_half_even n (d * 2 ^ k)) (ex + k).

(** The left shift [SFdiv] applies to the dividend of [a / b]. *)
Definition div_shift (a b : positive) : Z :=
  - Z.min (Z.max (Zdigits2 (Zpos a) - Zdigits2 (Zpos b) - 53) (-1074)) 0.

(** The magnitude of [x] is at least the integer [c]; the significand of a
    finite [x] fits 53 bits. *)
Definition mag_ge (x : spec_float) (c : Z) : Prop :=
  match x with
  | S754_infinity _ => True
  | S754_finite _ m e =>
      Z.pos m < 2 ^ 53 /\
      (if e <? 0 then c * 2 ^ (- e) <= Z.pos m else c <= Z.pos m * 2 ^ e)
  | _ => False
  end.

(** [x] is a zero, a finite number or an infinity of sign [s]. *)
Definition has_sign (s : bool) (x : spec_float) : Prop :=
  match x with
  | S754_nan => False
  | S754_zero s' | S754_infinity s' | S754_finite s' _ _ => s' = s
  end.

(** Quotients [a / b] at or above [b * overflow_factor] round to infinity. *)
Definition overflow_factor : Z := 2 ^ 1024 - 2 ^ 970.

End Rounding.

(** ** The calculator on integer counts *)

(** The weighted sum of line 31. *)
Definition raw_score (f p s t : Z) : Z := f * 3 + p * 2 + s * 4 + t * 1.

(** The score of a raw integer sum: lines 35 and 37 on an [int]. *)
Definition score (raw : Z) : result pynum := normalize (JInt raw).

(** The integer [d.get(key, 0)] reads from a dict whose field, if present,
    is an integer. *)
Definition int_field (fields : list (string * json)) (key : string) : option Z :=
  match assoc_get fields key with
  | Some (JInt z) => Some z
  | Some _ => None
  | None => Some 0
  end.

(** The sum of a field over repository dicts, each read by [int_field]. *)
Fixpoint sum_ints (repos : list (list (string * json))) (key : string) : option Z :=
  match repos with
  | [] => Some 0
  | r :: rest =>
      match int_field r key, sum_ints rest key with
      | Some z, Some total => Some (z + total)
      | _, _ => None
      end
  end.

(** Raw sums from this bound on, in magnitude, overflow the division. *)
Definition OVERFLOW_BOUND : Z := MAX_POSSIBLE_SCORE * Rounding.overflow_factor.

(** The formula of the specification, [min(100, round((3f+2p+4s+t)/100, 2))],
    in binary64 arithmetic. *)
Definition spec_score (f p s t : Z) : pynum :=
  py_min_100 (Binary64.round2 (Binary64.ieee_div_int (3 * f + 2 * p + 4 * s + t) 100)).

(** [(raw / 10000) * 100], and its rounding to two places with no [min]
    applied. *)
Definition scaled (raw : Z) : spec_float :=
  Binary64.float_mul (Binary64.ieee_div_int raw MAX_POSSIBLE_SCORE) Binary64.hundred.

Definition unclamped (raw : Z) : spec_float := Binary64.round2 (scaled raw).

(** [round(raw / 100, 2)]. *)
Definition rounded_hundredth (raw : Z) : spec_float :=
  Binary64.round2 (Binary64.ieee_div_int raw 100).

(** ** Comparing numbers *)

(** The exact comparison of a float with an integer. *)
Definition float_cmp_int (x : spec_float) (i : Z) : option comparison :=
  match x with
  | S754_nan => None
  | S754_infinity s => Some (if s then Lt else Gt)
  | S754_zero _ => Some (0 ?= i)
  | S754_finite s m e =>
      let v := if s then Z.neg m else Z.pos m in
      Some match e with
           | Z.neg k => v ?= i * Z.pow_pos 2 k
           | _ => v * 2 ^ e ?= i
           end
  end.

(** [a <= b] on Python numbers. *)
Definition num_leb (a b : pynum) : bool :=
  match a, b with
  | PInt x, PInt y => x <=? y
  | PFloat x, PFloat y => Binary64.float_le x y
  | PFloat x, PInt y =>
      match float_cmp_int x y with
      | Some Lt | Some Eq => true
      | _ => false
      end
  | PInt x, PFloat y =>
      match float_cmp_int y x with
      | Some Gt | Some Eq => true
      | _ => false
      end
  end.

(** ** Floats within half a hundredth of [a / 100] *)

(** [x] is a positive float with a 53-bit significand and a negative
    exponent, and [100 * x] lies strictly within one half of [a]. *)
Definition near_hundredth (x : spec_float) (a : Z) : Prop :=
  exists m e,
    x = S754_finite false m e /\
    2 ^ 52 <= Z.pos m < 2 ^ 53 /\ e < 0 /\
    (2 * a - 1) * 2 ^ (- e) < 200 * Z.pos m < (2 * a + 1) * 2 ^ (- e).

(** ** Documents of any shape *)

(** The values arithmetic accepts as counts: integers and booleans. *)
Definition is_number (v : json) : bool :=
  match v with
  | JInt _ | JBool _ => true
  | _ => false
  end.

(** The integer a number stands for in a sum or a product. *)
Definition num_value (v : json) : Z :=
  match v with
  | JInt z => z
  | JBool b => Z.b2z b
  | _ => 0
  end.

(** A field that is absent or holds a number. *)
Definition countable (fields : list (string * json)) (key : string) : bool :=
  match assoc_get fields key with
  | Some v => is_number v
  | None => true
  end.

(** The value of a count, 0 when the field is absent. *)
Definition count_of (fields : list (string * json)) (key : string) : Z :=
  match assoc_get fields key with
  | Some v => num_value v
  | None => 0
  end.

(** An entry the sum over [key] accepts: a dict whose count is absent or a
    number. *)
Definition summable (key : string) (item : json) : bool :=
  match item with
  | JObj fields => countable fields key
  | _ => false
  end.

Definition summable_repo (item : json) : bool :=
  summable "stargazers_count" item && summable "forks_count" item.

Definition count_in (key : string) (item : json) : Z :=
  match item with
  | JObj fields => count_of fields key
  | _ => 0
  end.

(** The total of a count over the entries of a list. *)
Definition total_of (items : list json) (key : string) : Z :=
  fold_right Z.add 0 (map (count_in key) items).

(** A profile dict and a repository list the calculator can add up. *)
Definition well_formed (fields : list (string * json)) (items : list json) : bool :=
  countable fields "followers" && countable fields "public_repos" &&
  forallb summable_repo items.

(** The weighted sum of line 31 on such documents. *)
Definition weighted_sum (fields : list (string * json)) (items : list json) : Z :=
  raw_score (count_of fields "followers") (count_of fields "public_repos")
            (total_of items "stargazers_count") (total_of items "forks_count").

(** [d.get(key)] on the fields of a dict. *)
Definition get_or_null (fields : list (string * json)) (key : string) : json :=
  match assoc_get fields key with
  | Some v => v
  | None => JNull
  end.

(** The exceptions the calculator can raise. *)
Definition calculator_error (e : exn) : bool :=
  match e with
  | TypeError | AttributeError | OverflowError => true
  | _ => false
  end.

(** ** Requests and replies *)

(** The GET calls of one request, by the outcome of the profile call. *)
Definition request_calls (cfg : config) (user : string) (first : outcome)
  : list string :=
  match first with
  | Responded _ => [profile_url cfg user; repos_url cfg user]
  | Failed _ => [profile_url cfg user]
  end.

(** The statuses a reply body comes with. *)
Definition status_fits (r : reply) : bool :=
  match body r with
  | Summary _ => status r =? 200
  | ErrorRecord _ => (status r =? 403) || (status r =? 404) || (status r =? 500)
  | InternalServerError => status r =? 500
  end.


(** A response with status 200 whose body does not parse. *)
Definition malformed_response (description : string) : response :=
  {| status_code := 200; content := Malformed description |}.
(** * Binary64 rounding: the library's algorithm and its closed form *)

Module RoundingFacts.

Import Binary64 Rounding.

Lemma digits2_pos_size (p : positive) : digits2_pos p = Pos.size p.
Proof. induction p; simpl; congruence. Qed.

Lemma Zdigits2_log2 (p : positive) : Zdigits2 (Zpos p) = Z.log2 (Zpos p) + 1.
Proof.
  simpl. rewrite digits2_pos_size.
  destruct p; simpl; rewrite ?Pos2Z.inj_succ; lia.
Qed.

(** A positive integer with [k] binary digits lies in [[2^(k-1), 2^k)]. *)
Lemma Zdigits2_bounds (x : Z) :
  0 < x -> 2 ^ (Zdigits2 x - 1) <= x < 2 ^ Zdigits2 x.
Proof.
  intros Hx. destruct x as [|p|p]; try lia.
  rewrite Zdigits2_log2.
  replace (Z.log2 (Z.pos p) + 1 - 1) with (Z.log2 (Z.pos p)) by lia.
  pose proof (Z.log2_spec (Z.pos p) Hx) as H.
  rewrite <- Z.add_1_r in H. exact H.
Qed.

Lemma Zdigits2_unique (x k : Z) :
  2 ^ (k - 1) <= x < 2 ^ k -> 0 < k -> Zdigits2 x = k.
Proof.
  intros [Hlo Hhi] Hk.
  assert (Hx : 0 < x) by (pose proof (Z.pow_pos_nonneg 2 (k - 1)); lia).
  destruct x as [|p|p]; try lia.
  rewrite Zdigits2_log2.
  assert (Z.log2 (Z.pos p) = k - 1); [|lia].
  apply Z.log2_unique; [lia|].
  replace (Z.succ (k - 1)) with k by lia. lia.
Qed.

Lemma Zdigits2_nonneg (x : Z) : 0 <= Zdigits2 x.
Proof. destruct x; simpl; lia. Qed.

Lemma Zdigits2_upper (x : Z) : 0 <= x -> x < 2 ^ Zdigits2 x.
Proof.
  intros Hx. destruct (Z.eq_dec x 0) as [->|N]; [reflexivity|].
  apply Zdigits2_bounds. lia.
Qed.

(** ** Locations *)

Lemma record_of_loc_of_record (r : shr_record) :
  shr_record_of_loc (shr_m r) (loc_of_shr_record r) = r.
Proof. destruct r as [m [|] [|]]; reflexivity. Qed.

Lemma loc_of_record_of_loc (m : Z) (l : location) :
  loc_of_shr_record (shr_record_of_loc m l) = l.
Proof. destruct l as [|[| |]]; reflexivity. Qed.

Lemma shr_m_record_of_loc (m : Z) (l : location) :
  shr_m (shr_record_of_loc m l) = m.
Proof. destruct l as [|[| |]]; reflexivity. Qed.

(** Rounding a significand at its location is rounding the quotient. *)
Lemma round_nearest_even_loc (n d : Z) :
  0 < d ->
  round_nearest_even (n / d) (loc_of n d) = round_half_even n d.
Proof.
  intros Hd. unfold loc_of, round_half_even.
  destruct (Z.eqb_spec (n mod d) 0) as [E|N]; simpl.
  - rewrite E. simpl. destruct d; try lia; reflexivity.
  - destruct (2 * (n mod d) ?= d); reflexivity.
Qed.

(** The library's location of a remainder is [loc_of]. *)
Lemma new_location_loc (n d : Z) :
  0 < d -> new_location d (n mod d) = loc_of n d.
Proof.
  intros Hd. unfold new_location, new_location_even, new_location_odd, loc_of.
  pose proof (Z.mod_pos_bound n d Hd) as Hr.
  destruct (Z.even d) eqn:Ev; destruct (Z.eqb_spec (n mod d) 0) as [E|N];
    try reflexivity.
  f_equal.
  destruct (Z.compare_spec (2 * (n mod d) + 1) d) as [H|H|H];
    destruct (Z.compare_spec (2 * (n mod d)) d) as [H'|H'|H'];
    try reflexivity; try lia.
  rewrite <- H' in Ev. rewrite Z.even_mul in Ev. discriminate Ev.
Qed.

(** One right shift halves the quotient a record stands for. *)
Lemma shr_1_rec_of (n d : Z) :
  0 <= n -> 0 < d ->
  shr_1 (rec_of n d) = rec_of n (2 * d).
Proof.
  intros Hn Hd. unfold rec_of.
  assert (Hq : n / (2 * d) = (n / d) / 2).
  { rewrite (Z.mul_comm 2 d), Z.div_div by lia. reflexivity. }
  assert (Hm : n mod (2 * d) = n mod d + d * ((n / d) mod 2)).
  { rewrite (Z.mul_comm 2 d). apply Z.rem_mul_r; lia. }
  pose proof (Z.mod_pos_bound n d Hd) as Hr.
  pose proof (Z.div_pos n d Hn Hd) as Hq0.
  pose proof (Z.mod_pos_bound (n / d) 2 ltac:(lia)) as Hb.
  pose proof (Z.div_mod (n / d) 2 ltac:(lia)) as Hdm.
  rewrite Hq. unfold loc_of. rewrite Hm.
  set (q := n / d) in *. set (r := n mod d) in *.
  assert (Hshr : forall l,
            shr_1 (shr_record_of_loc q l) =
            Build_shr_record (q / 2) (Z.odd q)
              (match l with loc_Exact => false | _ => true end)).
  { intros l.
    assert (Hdiv : forall p, Z.pos p~0 / 2 = Z.pos p /\ Z.pos p~1 / 2 = Z.pos p).
    { intros p. split.
      - rewrite Pos2Z.inj_xO, Z.mul_comm. apply Z.div_mul; lia.
      - rewrite Pos2Z.inj_xI. symmetry. apply (Z.div_unique _ _ _ 1); lia. }
    destruct q as [|[p|p|]|p]; try lia;
      destruct l as [|[| |]]; simpl; rewrite ?(proj1 (Hdiv p)), ?(proj2 (Hdiv p));
      reflexivity. }
  rewrite Hshr.
  rewrite Zmod_odd in Hb, Hdm |- *.
  destruct (Z.odd q) eqn:Eo.
  - destruct (Z.eqb_spec r 0) as [E|N].
    + rewrite E. replace (0 + d * 1) with d by lia.
      destruct (Z.eqb_spec d 0); [lia|].
      rewrite Z.compare_refl. reflexivity.
    + destruct (Z.eqb_spec (r + d * 1) 0); [lia|].
      destruct (Z.compare_spec (2 * (r + d * 1)) (2 * d)); try lia.
      reflexivity.
  - replace (r + d * 0) with r by lia.
    destruct (Z.eqb_spec r 0) as [E|N]; [reflexivity|].
    destruct (Z.compare_spec (2 * r) (2 * d)); try lia.
    reflexivity.
Qed.

Lemma iter_shr_1_rec_of (p : positive) : forall n d : Z,
  0 <= n -> 0 < d ->
  SpecFloat.iter_pos shr_1 p (rec_of n d) = rec_of n (d * 2 ^ Z.pos p).
Proof.
  induction p as [p IH|p IH|]; intros n d Hn Hd; simpl SpecFloat.iter_pos.
  - assert (H := Z.pow_pos_nonneg 2 (Z.pos p) ltac:(lia) ltac:(lia)).
    rewrite shr_1_rec_of, IH, IH by nia.
    f_equal. change (Z.pos p~1) with (2 * Z.pos p + 1).
    replace (2 * Z.pos p + 1) with (Z.pos p + Z.pos p + 1) by lia.
    rewrite !Z.pow_add_r by lia.
    change (2 ^ 1) with 2. ring.
  - assert (H := Z.pow_pos_nonneg 2 (Z.pos p) ltac:(lia) ltac:(lia)).
    rewrite IH, IH by nia.
    f_equal. change (Z.pos p~0) with (2 * Z.pos p).
    replace (2 * Z.pos p) with (Z.pos p + Z.pos p) by lia.
    rewrite Z.pow_add_r by lia. ring.
  - rewrite shr_1_rec_of by lia. f_equal. change (2 ^ 1) with 2. ring.
Qed.

Lemma shr_rec_of (n d e k : Z) :
  0 <= n -> 0 < d ->
  shr (rec_of n d) e k = (rec_of n (d * 2 ^ Z.max 0 k), e + Z.max 0 k).
Proof.
  intros Hn Hd. destruct k as [|p|p]; simpl shr.
  - rewrite Z.mul_1_r, Z.add_0_r. reflexivity.
  - rewrite iter_shr_1_rec_of by assumption.
    replace (Z.max 0 (Z.pos p)) with (Z.pos p) by lia. reflexivity.
  - replace (Z.max 0 (Z.neg p)) with 0 by lia.
    rewrite Z.mul_1_r, Z.add_0_r. reflexivity.
Qed.

Lemma rec_of_exact (m : Z) : shr_record_of_loc m loc_Exact = rec_of m 1.
Proof.
  unfold rec_of, loc_of. rewrite Z.div_1_r, Z.mod_1_r. reflexivity.
Qed.

Lemma shr_m_rec_of (n d : Z) : shr_m (rec_of n d) = n / d.
Proof. unfold rec_of. apply shr_m_record_of_loc. Qed.

Lemma fexp_53 (e : Z) : fexp prec emax e = Z.max (e - 53) (-1074).
Proof. reflexivity. Qed.

(** ** Rounding a quotient to the nearest integer *)

Lemma round_half_even_bounds (n d : Z) :
  0 < d -> n / d <= round_half_even n d <= n / d + 1.
Proof.
  intros Hd. unfold round_half_even.
  destruct (2 * (n mod d) ?= d); [destruct (Z.even (n / d))| |]; lia.
Qed.

Lemma round_half_even_nonneg (n d : Z) :
  0 <= n -> 0 < d -> 0 <= round_half_even n d.
Proof.
  intros Hn Hd. pose proof (round_half_even_bounds n d Hd).
  pose proof (Z.div_pos n d Hn Hd). lia.
Qed.

(** The significand left by [shift_of] has at most 53 bits. *)
Lemma shifted_lt_2_53 (mx ex : Z) :
  0 <= mx -> mx / 2 ^ shift_of mx ex < 2 ^ 53.
Proof.
  intros Hm. unfold shift_of.
  set (K := Z.max 0 (Z.max (Zdigits2 mx - 53) (-1074 - ex))).
  assert (HK : 0 <= K) by lia.
  assert (H2K := Z.pow_pos_nonneg 2 K ltac:(lia) HK).
  apply Z.div_lt_upper_bound; [lia|].
  rewrite <- Z.pow_add_r by lia.
  apply Z.lt_le_trans with (2 ^ Zdigits2 mx).
  - apply Zdigits2_upper. assumption.
  - apply Z.pow_le_mono_r; lia.
Qed.

(** ** The library's rounding is [round_model] *)

Lemma shr_fexp_rec_of (n d ex : Z) :
  0 <= n -> 0 < d ->
  shr_fexp prec emax (n / d) ex (loc_of n d) =
  (rec_of n (d * 2 ^ shift_of (n / d) ex), ex + shift_of (n / d) ex).
Proof.
  intros Hn Hd. unfold shr_fexp. fold (rec_of n d).
  rewrite shr_rec_of, fexp_53 by assumption.
  replace (Z.max 0 (Z.max (Zdigits2 (n / d) + ex - 53) (-1074) - ex))
    with (shift_of (n / d) ex) by (unfold shift_of; lia).
  reflexivity.
Qed.

Lemma round_rec_of (n d : Z) :
  0 < d ->
  round_nearest_even (shr_m (rec_of n d)) (loc_of_shr_record (rec_of n d)) =
  round_half_even n d.
Proof.
  intros Hd. rewrite shr_m_rec_of. unfold rec_of.
  rewrite loc_of_record_of_loc. apply round_nearest_even_loc. assumption.
Qed.

Theorem binary_round_aux_model (s : bool) (n d ex : Z) :
  0 <= n -> 0 < d ->
  binary_round_aux prec emax s (n / d) ex (loc_of n d) = round_model s n d ex.
Proof.
  intros Hn Hd. unfold binary_round_aux, round_model.
  rewrite shr_fexp_rec_of by assumption.
  set (K := shift_of (n / d) ex).
  assert (HK : 0 <= K) by (unfold K, shift_of; lia).
  assert (H2K := Z.pow_pos_nonneg 2 K ltac:(lia) HK).
  assert (HD : 0 < d * 2 ^ K) by nia.
  rewrite round_rec_of by assumption.
  set (m1 := round_half_even n (d * 2 ^ K)).
  assert (Hm1 : 0 <= m1 <= 2 ^ 53).
  { pose proof (round_half_even_bounds n (d * 2 ^ K) HD) as Hb.
    pose proof (round_half_even_nonneg n (d * 2 ^ K) Hn HD) as H0.
    fold m1 in Hb, H0. split; [assumption|].
    assert (n / (d * 2 ^ K) < 2 ^ 53); [|lia].
    rewrite <- Z.div_div by lia.
    apply shifted_lt_2_53. apply Z.div_pos; lia. }
  assert (He1 : -1074 <= ex + K) by (unfold K, shift_of; lia).
  replace m1 with (m1 / 1) at 1 by apply Z.div_1_r.
  replace loc_Exact with (loc_of m1 1)
    by (unfold loc_of; rewrite Z.mod_1_r; reflexivity).
  rewrite shr_fexp_rec_of by lia.
  rewrite shr_m_rec_of, Z.div_1_r, Z.mul_1_l.
  unfold pack.
  destruct (Z.eq_dec m1 0) as [E0|N0].
  { rewrite E0. reflexivity. }
  destruct (Z.eq_dec m1 (2 ^ 53)) as [E|N].
  - rewrite E.
    replace (shift_of (2 ^ 53) (ex + K)) with 1
      by (unfold shift_of; change (Zdigits2 (2 ^ 53)) with 54; lia).
    change (2 ^ 53 / 2 ^ 1) with (Z.pos (2 ^ 52)).
    change (2 ^ 53 =? 2 ^ 53) with true. cbv iota.
    change (emax - prec) with 971. reflexivity.
  - assert (Hdg : Zdigits2 m1 <= 53).
    { destruct (Z_lt_le_dec 53 (Zdigits2 m1)) as [Hgt|]; [|assumption].
      exfalso. pose proof (Zdigits2_bounds m1 ltac:(lia)) as [Hlo _].
      assert (2 ^ 53 <= 2 ^ (Zdigits2 m1 - 1)) by (apply Z.pow_le_mono_r; lia).
      lia. }
    replace (shift_of m1 (ex + K)) with 0 by (unfold shift_of; lia).
    rewrite Z.div_1_r, Z.add_0_r.
    destruct m1 as [|p|p]; try lia.
    destruct (Z.eqb_spec (Z.pos p) (2 ^ 53)) as [E|_]; [contradiction|].
    change (emax - prec) with 971. reflexivity.
Qed.

(** ** Division and multiplication as [round_model] *)

Lemma div_shift_nonneg (a b : positive) : 0 <= div_shift a b.
Proof. unfold div_shift. lia. Qed.

Theorem SFdiv_model (sa sb : bool) (a b : positive) :
  SFdiv prec emax (S754_finite sa a 0) (S754_finite sb b 0) =
  round_model (xorb sa sb) (Z.pos a * 2 ^ div_shift a b) (Z.pos b)
    (- div_shift a b).
Proof.
  unfold SFdiv, SFdiv_core_binary.
  rewrite fexp_53.
  replace (Z.min (Z.max (Zdigits2 (Z.pos a) + 0 - (Zdigits2 (Z.pos b) + 0) - 53)
                    (-1074)) (0 - 0))
    with (- div_shift a b) by (unfold div_shift; lia).
  replace (0 - 0 - - div_shift a b) with (div_shift a b) by lia.
  pose proof (div_shift_nonneg a b) as Hs.
  generalize dependent (div_shift a b). intros sh Hs.
  assert (Hm : match sh with
               | 0 => Z.pos a
               | Z.pos _ => Z.shiftl (Z.pos a) sh
               | Z.neg _ => 0
               end = Z.pos a * 2 ^ sh).
  { destruct sh as [|p|p]; try lia.
    apply Z.shiftl_mul_pow2. lia. }
  rewrite Hm.
  assert (H2 := Z.pow_pos_nonneg 2 sh ltac:(lia) Hs).
  set (n := Z.pos a * 2 ^ sh).
  assert (Hn : 0 <= n) by (unfold n; nia).
  rewrite <- (binary_round_aux_model (xorb sa sb) n (Z.pos b) (- sh)) by lia.
  rewrite <- new_location_loc by lia.
  unfold Z.div, Z.modulo.
  destruct (Z.div_eucl n (Z.pos b)) as [q r]. reflexivity.
Qed.

Theorem SFmul_model (s1 s2 : bool) (m1 m2 : positive) (e1 e2 : Z) :
  SFmul prec emax (S754_finite s1 m1 e1) (S754_finite s2 m2 e2) =
  round_model (xorb s1 s2) (Z.pos m1 * Z.pos m2) 1 (e1 + e2).
Proof.
  unfold SFmul.
  rewrite <- (binary_round_aux_model (xorb s1 s2) (Z.pos m1 * Z.pos m2) 1) by lia.
  unfold loc_of. rewrite Z.div_1_r, Z.mod_1_r. reflexivity.
Qed.

(** ** Bounds on [round_half_even] *)

Lemma round_half_even_lt (n d c : Z) :
  0 < d -> 2 * n < (2 * c - 1) * d -> round_half_even n d < c.
Proof.
  intros Hd H. unfold round_half_even.
  pose proof (Z.div_mod n d ltac:(lia)) as E.
  pose proof (Z.mod_pos_bound n d Hd) as Hr.
  set (q := n / d) in *. set (r := n mod d) in *.
  assert (q <= c - 1) by nia.
  destruct (Z.compare_spec (2 * r) d); [destruct (Z.even q)| |]; nia.
Qed.

Lemma round_half_even_ge (n d c : Z) :
  0 < d -> (2 * c - 1) * d <= 2 * n -> Z.odd (c - 1) = true ->
  c <= round_half_even n d.
Proof.
  intros Hd H Ho. unfold round_half_even.
  pose proof (Z.div_mod n d ltac:(lia)) as E.
  pose proof (Z.mod_pos_bound n d Hd) as Hr.
  set (q := n / d) in *. set (r := n mod d) in *.
  assert (c - 1 <= q) by nia.
  destruct (Z.eq_dec q (c - 1)) as [Eq|Nq].
  - destruct (Z.compare_spec (2 * r) d); try nia.
    rewrite Eq, <- Z.negb_odd, Ho. simpl. lia.
  - destruct (Z.compare_spec (2 * r) d); [destruct (Z.even q)| |]; lia.
Qed.

(** Rounding is insensitive to a common factor. *)
Lemma round_half_even_scale (n d c : Z) :
  0 < d -> 0 < c -> round_half_even (n * c) (d * c) = round_half_even n d.
Proof.
  intros Hd Hc. unfold round_half_even.
  rewrite Z.div_mul_cancel_r by lia.
  rewrite Zmult_mod_distr_r.
  replace (2 * (n mod d * c)) with (2 * (n mod d) * c) by ring.
  rewrite <- Zmult_compare_compat_r by lia. reflexivity.
Qed.

(** ** Lower bounds survive rounding *)

Lemma pow2_pos (k : Z) : 0 <= k -> 0 < 2 ^ k.
Proof. intros. apply Z.pow_pos_nonneg; lia. Qed.

Lemma shift_of_nonneg (mx ex : Z) : 0 <= shift_of mx ex.
Proof. unfold shift_of. lia. Qed.

(** A shift by the digit count leaves a significand of exactly 53 bits. *)
Lemma shifted_ge_2_52 (mx ex : Z) :
  0 < mx -> shift_of mx ex = Zdigits2 mx - 53 ->
  2 ^ 52 <= mx / 2 ^ shift_of mx ex.
Proof.
  intros Hm HK. pose proof (shift_of_nonneg mx ex) as H0.
  rewrite HK in *. pose proof (Zdigits2_bounds mx Hm) as [Hlo _].
  apply Z.div_le_lower_bound; [apply pow2_pos; lia|].
  rewrite <- Z.pow_add_r by lia.
  replace (Zdigits2 mx - 53 + 52) with (Zdigits2 mx - 1) by lia.
  exact Hlo.
Qed.

Lemma pack_mag_ge (s : bool) (t m e c : Z) :
  1 <= c -> t <= m <= t + 1 -> t < 2 ^ 53 ->
  (e < 0 -> c * 2 ^ (- e) <= t) -> (0 <= e -> c <= t * 2 ^ e) ->
  mag_ge (pack s m e) c.
Proof.
  intros Hc Hm Ht Hneg Hpos.
  assert (H1 : 1 <= t).
  { destruct (Z_lt_le_dec e 0) as [He|He].
    - pose proof (pow2_pos (- e) ltac:(lia)). specialize (Hneg He). nia.
    - pose proof (pow2_pos e He). specialize (Hpos He). nia. }
  unfold pack. destruct m as [|p|p]; try lia.
  destruct (Z.eqb_spec (Z.pos p) (2 ^ 53)) as [E|N].
  - destruct (e + 1 <=? 971); [|exact I].
    simpl. split; [reflexivity|].
    destruct (Z.ltb_spec (e + 1) 0) as [He|He].
    + specialize (Hneg ltac:(lia)).
      replace (- e) with (- (e + 1) + 1) in Hneg by lia.
      rewrite Z.pow_add_r in Hneg by lia.
      change (2 ^ 1) with 2 in Hneg. change (Z.pos (2 ^ 52)) with (2 ^ 52).
      change (2 ^ 53) with (2 ^ 52 * 2) in Ht. lia.
    + change (Z.pos (2 ^ 52)) with (2 ^ 52).
      destruct (Z.eq_dec e (-1)) as [->|Ne].
      * specialize (Hneg ltac:(lia)). change (2 ^ (- -1)) with 2 in Hneg.
        change (-1 + 1) with 0. change (2 ^ 0) with 1.
        change (2 ^ 53) with (2 ^ 52 * 2) in Ht. lia.
      * specialize (Hpos ltac:(lia)).
        rewrite Z.pow_add_r by lia. change (2 ^ 1) with 2.
        pose proof (pow2_pos e ltac:(lia)).
        change (2 ^ 53) with (2 ^ 52 * 2) in Ht. nia.
  - destruct (e <=? 971); [|exact I].
    simpl. split; [lia|].
    destruct (Z.ltb_spec e 0) as [He|He].
    + specialize (Hneg He). lia.
    + specialize (Hpos He). pose proof (pow2_pos e He). nia.
Qed.

Theorem round_model_ge (s : bool) (n d ex c : Z) :
  0 < d -> 0 < n -> 1 <= c <= 2 ^ 53 ->
  d = 1 \/ 2 ^ 52 * d <= n ->
  (if ex <? 0 then c * d * 2 ^ (- ex) <= n else c * d <= n * 2 ^ ex) ->
  mag_ge (round_model s n d ex) c.
Proof.
  intros Hd Hn Hc Hnorm Hval. unfold round_model.
  pose proof (shift_of_nonneg (n / d) ex) as HK.
  pose proof (shifted_lt_2_53 (n / d) ex ltac:(apply Z.div_pos; lia)) as Ht.
  rewrite Z.div_div in Ht by (try apply Z.pow_nonzero; try apply pow2_pos; lia).
  assert (Hbig : 2 ^ 52 * d <= n \/ (d = 1 /\ shift_of (n / d) ex = 0) ->
                 2 ^ 52 <= n / (d * 2 ^ shift_of (n / d) ex) \/
                 (d = 1 /\ shift_of (n / d) ex = 0) \/ ex + shift_of (n / d) ex < 0).
  { intros [Hb|Hb]; [|auto].
    assert (Hq : 2 ^ 52 <= n / d) by (apply Z.div_le_lower_bound; lia).
    pose proof (Zdigits2_bounds (n / d) ltac:(lia)) as [_ Hhi].
    assert (53 <= Zdigits2 (n / d)).
    { destruct (Z_lt_le_dec (Zdigits2 (n / d)) 53) as [Hlt|]; [|assumption].
      exfalso.
      assert (2 ^ Zdigits2 (n / d) <= 2 ^ 52)
        by (apply Z.pow_le_mono_r; lia).
      lia. }
    destruct (Z.eq_dec (shift_of (n / d) ex) (Zdigits2 (n / d) - 53)) as [E|N].
    - left. rewrite <- Z.div_div by (try apply pow2_pos; lia).
      apply shifted_ge_2_52; [lia|assumption].
    - right. right. unfold shift_of in *. lia. }
  set (K := shift_of (n / d) ex) in *.
  pose proof (pow2_pos K HK) as H2K.
  assert (HD : 0 < d * 2 ^ K) by nia.
  pose proof (round_half_even_bounds n (d * 2 ^ K) HD) as Hm.
  apply (pack_mag_ge s (n / (d * 2 ^ K))); try lia.
  - intros He. assert (Hex : ex < 0) by lia.
    destruct (Z.ltb_spec ex 0) as [_|]; [|lia].
    apply Z.div_le_lower_bound; [lia|].
    replace (- ex) with (- (ex + K) + K) in Hval by lia.
    rewrite Z.pow_add_r in Hval by lia.
    pose proof (pow2_pos (- (ex + K)) ltac:(lia)). nia.
  - intros He.
    pose proof (pow2_pos (ex + K) He) as H2e.
    assert (Hcases : 2 ^ 52 <= n / (d * 2 ^ K) \/ (d = 1 /\ K = 0)).
    { destruct (Z.eq_dec K 0) as [EK|NK].
      - destruct Hnorm as [Hn1|Hn2].
        + right. auto.
        + destruct (Hbig (or_introl Hn2)) as [H|[H|H]]; auto; lia.
      - assert (K = Zdigits2 (n / d) - 53) by (unfold K, shift_of in *; lia).
        left. rewrite <- Z.div_div by lia.
        apply shifted_ge_2_52; [|assumption].
        destruct (Z.eq_dec (n / d) 0) as [E0|]; [|pose proof (Z.div_pos n d); lia].
        rewrite E0 in *. simpl in *. lia. }
    destruct Hcases as [Hbig'|[-> EK]].
    + destruct (Z.eq_dec (ex + K) 0) as [E0|N0].
      * rewrite E0. change (2 ^ 0) with 1. rewrite Z.mul_1_r.
        apply Z.div_le_lower_bound; [lia|].
        destruct (Z.ltb_spec ex 0) as [Hex|Hex].
        -- replace (- ex) with K in Hval by lia. nia.
        -- replace K with 0 in * by lia. replace ex with 0 in * by lia.
           change (2 ^ 0) with 1 in *. nia.
      * assert (2 <= 2 ^ (ex + K)).
        { change 2 with (2 ^ 1) at 1. apply Z.pow_le_mono_r; lia. }
        change (2 ^ 53) with (2 ^ 52 * 2) in Hc. nia.
    + rewrite EK in *. change (2 ^ 0) with 1 in *.
      rewrite Z.mul_1_r, Z.div_1_r, Z.add_0_r in *.
      destruct (Z.ltb_spec ex 0); lia.
Qed.

Lemma Zdigits2_le (x k : Z) : 0 < x -> 0 <= k -> x < 2 ^ k -> Zdigits2 x <= k.
Proof.
  intros Hx Hk H. pose proof (Zdigits2_bounds x Hx) as [Hlo _].
  destruct (Z_le_gt_dec (Zdigits2 x) k) as [|Hgt]; [assumption|exfalso].
  assert (2 ^ k <= 2 ^ (Zdigits2 x - 1)) by (apply Z.pow_le_mono_r; lia).
  lia.
Qed.

Lemma Zdigits2_ge (x k : Z) : 1 <= k -> 2 ^ (k - 1) <= x -> k <= Zdigits2 x.
Proof.
  intros Hk H. pose proof (pow2_pos (k - 1) ltac:(lia)).
  pose proof (Zdigits2_bounds x ltac:(lia)) as [_ Hhi].
  destruct (Z_le_gt_dec k (Zdigits2 x)) as [|Hgt]; [assumption|exfalso].
  assert (2 ^ Zdigits2 x <= 2 ^ (k - 1)) by (apply Z.pow_le_mono_r; lia).
  lia.
Qed.

Lemma round_model_sign (s : bool) (n d ex : Z) :
  0 <= n -> 0 < d -> has_sign s (round_model s n d ex).
Proof.
  intros Hn Hd. unfold round_model, pack.
  pose proof (shift_of_nonneg (n / d) ex) as HK.
  pose proof (pow2_pos _ HK).
  pose proof (round_half_even_nonneg n (d * 2 ^ shift_of (n / d) ex) Hn
                ltac:(nia)) as H0.
  destruct (round_half_even n (d * 2 ^ shift_of (n / d) ex)) as [|p|p];
    try lia; [reflexivity|].
  destruct (Z.pos p =? 2 ^ 53);
    match goal with |- context [if ?b then _ else _] => destruct b end;
    reflexivity.
Qed.

(** ** Integer quotients *)

(** The dividend is shifted far enough for a 53-bit quotient. *)
Lemma normal_quotient (a b : positive) :
  Zdigits2 (Z.pos b) - Zdigits2 (Z.pos a) <= 1021 ->
  2 ^ 52 * Z.pos b <= Z.pos a * 2 ^ div_shift a b.
Proof.
  intros Hdg.
  pose proof (Zdigits2_bounds (Z.pos a) ltac:(lia)) as [Ha _].
  pose proof (Zdigits2_bounds (Z.pos b) ltac:(lia)) as [_ Hb].
  pose proof (div_shift_nonneg a b) as Hs.
  assert (Hsh : Zdigits2 (Z.pos b) + 53 - Zdigits2 (Z.pos a) <= div_shift a b)
    by (unfold div_shift; lia).
  pose proof (Zdigits2_nonneg (Z.pos b)).
  assert (1 <= Zdigits2 (Z.pos a)) by (simpl; lia).
  assert (2 ^ (Zdigits2 (Z.pos b) + 52) <=
          2 ^ (Zdigits2 (Z.pos a) - 1) * 2 ^ div_shift a b).
  { rewrite <- Z.pow_add_r by lia. apply Z.pow_le_mono_r; lia. }
  rewrite Z.pow_add_r in * by lia.
  pose proof (pow2_pos (div_shift a b) Hs).
  pose proof (pow2_pos (Zdigits2 (Z.pos b)) ltac:(lia)).
  nia.
Qed.

Theorem SFdiv_ge (sa sb : bool) (a b : positive) (c : Z) :
  Zdigits2 (Z.pos b) - Zdigits2 (Z.pos a) <= 1021 ->
  1 <= c <= 2 ^ 53 -> c * Z.pos b <= Z.pos a ->
  mag_ge (SFdiv prec emax (S754_finite sa a 0) (S754_finite sb b 0)) c.
Proof.
  intros Hdg Hc Hle. rewrite SFdiv_model.
  pose proof (div_shift_nonneg a b) as Hs.
  pose proof (pow2_pos _ Hs) as H2.
  apply round_model_ge; try lia.
  - right. apply normal_quotient. assumption.
  - destruct (Z.ltb_spec (- div_shift a b) 0).
    + rewrite Z.opp_involutive. nia.
    + replace (div_shift a b) with 0 by lia. nia.
Qed.

Lemma SFdiv_sign (sa sb : bool) (a b : positive) :
  has_sign (xorb sa sb)
    (SFdiv prec emax (S754_finite sa a 0) (S754_finite sb b 0)).
Proof.
  rewrite SFdiv_model. pose proof (pow2_pos _ (div_shift_nonneg a b)).
  apply round_model_sign; nia.
Qed.

(** A quotient overflows exactly from [b * overflow_factor] on. *)
Theorem SFdiv_finite (sa sb : bool) (a b : positive) :
  Zdigits2 (Z.pos b) - Zdigits2 (Z.pos a) <= 1021 ->
  Z.pos a < Z.pos b * overflow_factor ->
  exists m e,
    SFdiv prec emax (S754_finite sa a 0) (S754_finite sb b 0) =
    S754_finite (xorb sa sb) m e.
Proof.
  intros Hdg Hlt. rewrite SFdiv_model.
  pose proof (div_shift_nonneg a b) as Hs.
  assert (Hs' : div_shift a b <= 1074) by (unfold div_shift; lia).
  pose proof (pow2_pos _ Hs) as H2.
  pose proof (normal_quotient a b Hdg) as Hnorm.
  set (sh := div_shift a b) in *. set (n := Z.pos a * 2 ^ sh) in *.
  assert (Hq : 2 ^ 52 <= n / Z.pos b) by (apply Z.div_le_lower_bound; lia).
  assert (Hdg53 : 53 <= Zdigits2 (n / Z.pos b)) by (apply Zdigits2_ge; lia).
  assert (Hq' : n / Z.pos b < 2 ^ (1024 + sh)).
  { apply Z.div_lt_upper_bound; [lia|]. rewrite Z.pow_add_r by lia.
    unfold n, overflow_factor in *. nia. }
  assert (Hdgu : Zdigits2 (n / Z.pos b) <= 1024 + sh)
    by (apply Zdigits2_le; lia).
  unfold round_model.
  assert (HK : shift_of (n / Z.pos b) (- sh) = Zdigits2 (n / Z.pos b) - 53)
    by (unfold shift_of; lia).
  pose proof (shifted_ge_2_52 (n / Z.pos b) (- sh) ltac:(lia) HK) as Hlo.
  pose proof (shifted_lt_2_53 (n / Z.pos b) (- sh) ltac:(lia)) as Hhi.
  rewrite Z.div_div in Hlo, Hhi by (try apply pow2_pos; rewrite ?HK; lia).
  rewrite HK in *. set (K := Zdigits2 (n / Z.pos b) - 53) in *.
  pose proof (pow2_pos K ltac:(lia)) as H2K.
  pose proof (round_half_even_bounds n (Z.pos b * 2 ^ K) ltac:(nia)) as Hm.
  assert (Hcarry : - sh + K = 971 -> round_half_even n (Z.pos b * 2 ^ K) < 2 ^ 53).
  { intros E. apply round_half_even_lt; [nia|].
    replace K with (971 + sh) by lia. rewrite Z.pow_add_r by lia.
    unfold n, overflow_factor in *.
    assert (2 * Z.pos a < (2 * 2 ^ 53 - 1) * 2 ^ 971 * Z.pos b) by lia.
    nia. }
  unfold pack.
  destruct (round_half_even n (Z.pos b * 2 ^ K)) as [|p|p] eqn:Em; try lia.
  destruct (Z.eqb_spec (Z.pos p) (2 ^ 53)) as [E|N].
  - destruct (Z.leb_spec (- sh + K + 1) 971); [eauto|].
    assert (- sh + K = 971) by lia. specialize (Hcarry ltac:(assumption)). lia.
  - destruct (Z.leb_spec (- sh + K) 971); [eauto|lia].
Qed.

Theorem SFdiv_overflow (sa sb : bool) (a b : positive) :
  Z.pos b * overflow_factor <= Z.pos a ->
  SFdiv prec emax (S754_finite sa a 0) (S754_finite sb b 0) =
  S754_infinity (xorb sa sb).
Proof.
  intros Hge. rewrite SFdiv_model.
  pose proof (div_shift_nonneg a b) as Hs.
  pose proof (pow2_pos _ Hs) as H2.
  set (sh := div_shift a b) in *. set (n := Z.pos a * 2 ^ sh) in *.
  assert (Hq : 2 ^ (1023 + sh) <= n / Z.pos b).
  { apply Z.div_le_lower_bound; [lia|]. rewrite Z.pow_add_r by lia.
    unfold n, overflow_factor in *.
    assert (Z.pos b * 2 ^ 1023 <= Z.pos a) by lia. nia. }
  assert (Hdg : 1024 + sh <= Zdigits2 (n / Z.pos b)).
  { apply Zdigits2_ge; [lia|]. replace (1024 + sh - 1) with (1023 + sh) by lia.
    exact Hq. }
  pose proof (pow2_pos (1023 + sh) ltac:(lia)) as Hp.
  unfold round_model.
  assert (HK : shift_of (n / Z.pos b) (- sh) = Zdigits2 (n / Z.pos b) - 53)
    by (unfold shift_of; lia).
  pose proof (shifted_ge_2_52 (n / Z.pos b) (- sh) ltac:(lia) HK) as Hlo.
  pose proof (shifted_lt_2_53 (n / Z.pos b) (- sh) ltac:(lia)) as Hhi.
  rewrite Z.div_div in Hlo, Hhi by (try apply pow2_pos; rewrite ?HK; lia).
  rewrite HK in *. set (K := Zdigits2 (n / Z.pos b) - 53) in *.
  pose proof (pow2_pos K ltac:(lia)) as H2K.
  pose proof (round_half_even_bounds n (Z.pos b * 2 ^ K) ltac:(nia)) as Hm.
  assert (Hcarry : - sh + K = 971 -> 2 ^ 53 <= round_half_even n (Z.pos b * 2 ^ K)).
  { intros E. apply round_half_even_ge; [nia| |reflexivity].
    replace K with (971 + sh) by lia. rewrite Z.pow_add_r by lia.
    unfold n, overflow_factor in *.
    assert ((2 * 2 ^ 53 - 1) * 2 ^ 971 * Z.pos b <= 2 * Z.pos a) by lia.
    nia. }
  unfold pack.
  destruct (round_half_even n (Z.pos b * 2 ^ K)) as [|p|p] eqn:Em; try lia.
  destruct (Z.eqb_spec (Z.pos p) (2 ^ 53)) as [E|N].
  - destruct (Z.leb_spec (- sh + K + 1) 971); [lia|reflexivity].
  - destruct (Z.leb_spec (- sh + K) 971); [|reflexivity].
    assert (- sh + K = 971) by lia. specialize (Hcarry ltac:(assumption)). lia.
Qed.

(** ** The rounded significand is within half a unit of the quotient *)

Lemma round_half_even_within (n d : Z) :
  0 < d ->
  (2 * round_half_even n d - 1) * d <= 2 * n <= (2 * round_half_even n d + 1) * d.
Proof.
  intros Hd. unfold round_half_even.
  pose proof (Z.div_mod n d ltac:(lia)) as E.
  pose proof (Z.mod_pos_bound n d Hd) as Hr.
  set (q := n / d) in *. set (r := n mod d) in *.
  destruct (Z.compare_spec (2 * r) d); [destruct (Z.even q)| |]; nia.
Qed.

Lemma round_half_even_eq (n d c : Z) :
  0 < d -> (2 * c - 1) * d < 2 * n < (2 * c + 1) * d -> round_half_even n d = c.
Proof.
  intros Hd [Hlo Hhi].
  pose proof (round_half_even_within n d Hd) as [H1 H2].
  set (x := round_half_even n d) in *.
  assert (x < c + 1) by nia. assert (c - 1 < x) by nia. lia.
Qed.

(** [round_model] on a quotient of at least 53 bits: an infinity, or a
    53-bit significand within half a unit in the last place. *)
Theorem round_model_normal (s : bool) (n d ex : Z) :
  0 < d -> 2 ^ 52 * d <= n -> -1074 <= ex ->
  (round_model s n d ex = S754_infinity s /\
   971 <= ex + (Zdigits2 (n / d) - 53)) \/
  exists m e,
    round_model s n d ex = S754_finite s m e /\
    2 ^ 52 <= Z.pos m < 2 ^ 53 /\
    ex + (Zdigits2 (n / d) - 53) <= e <= ex + (Zdigits2 (n / d) - 53) + 1 /\
    (2 * Z.pos m - 1) * (d * 2 ^ (e - ex)) <= 2 * n <=
    (2 * Z.pos m + 1) * (d * 2 ^ (e - ex)).
Proof.
  intros Hd Hnorm Hex.
  assert (Hq : 2 ^ 52 <= n / d) by (apply Z.div_le_lower_bound; lia).
  assert (Hdg53 : 53 <= Zdigits2 (n / d)) by (apply Zdigits2_ge; lia).
  unfold round_model.
  assert (HK : shift_of (n / d) ex = Zdigits2 (n / d) - 53)
    by (unfold shift_of; lia).
  pose proof (shifted_ge_2_52 (n / d) ex ltac:(lia) HK) as Hlo.
  pose proof (shifted_lt_2_53 (n / d) ex ltac:(lia)) as Hhi.
  rewrite Z.div_div in Hlo, Hhi by (try apply pow2_pos; rewrite ?HK; lia).
  rewrite HK in *. set (K := Zdigits2 (n / d) - 53) in *.
  pose proof (pow2_pos K ltac:(lia)) as H2K.
  pose proof (round_half_even_bounds n (d * 2 ^ K) ltac:(nia)) as Hm.
  pose proof (round_half_even_within n (d * 2 ^ K) ltac:(nia)) as Hw.
  unfold pack.
  destruct (round_half_even n (d * 2 ^ K)) as [|q|q] eqn:Em; try lia.
  destruct (Z.eqb_spec (Z.pos q) (2 ^ 53)) as [E|N].
  - destruct (Z.leb_spec (ex + K + 1) 971); [|left; split; [reflexivity|lia]].
    right. exists (2 ^ 52)%positive, (ex + K + 1). split; [reflexivity|].
    split; [split; reflexivity|]. split; [lia|].
    replace (ex + K + 1 - ex) with (K + 1) by lia.
    rewrite Z.pow_add_r by lia. change (2 ^ 1) with 2.
    rewrite E in Hw. change (Z.pos (2 ^ 52)) with (2 ^ 52).
    change (2 ^ 53) with (2 * 2 ^ 52) in Hw. nia.
  - destruct (Z.leb_spec (ex + K) 971); [|left; split; [reflexivity|lia]].
    right. exists q, (ex + K). split; [reflexivity|].
    split; [lia|]. split; [lia|].
    replace (ex + K - ex) with K by lia. exact Hw.
Qed.

(** A finite quotient of integers: a 53-bit significand within half a unit
    in the last place of [a / b]. *)
Theorem SFdiv_normal (a b : positive) (m : positive) (e : Z) (s : bool) :
  Zdigits2 (Z.pos b) - Zdigits2 (Z.pos a) <= 1021 ->
  SFdiv prec emax (S754_finite false a 0) (S754_finite false b 0) =
    S754_finite s m e ->
  2 ^ 52 <= Z.pos m < 2 ^ 53 /\
  if e <=? 0
  then (2 * Z.pos m - 1) * Z.pos b <= 2 * (Z.pos a * 2 ^ (- e)) <=
       (2 * Z.pos m + 1) * Z.pos b
  else (2 * Z.pos m - 1) * (Z.pos b * 2 ^ e) <= 2 * Z.pos a <=
       (2 * Z.pos m + 1) * (Z.pos b * 2 ^ e).
Proof.
  intros Hdg E. rewrite SFdiv_model in E.
  pose proof (div_shift_nonneg a b) as Hs.
  assert (Hs' : div_shift a b <= 1074) by (unfold div_shift; lia).
  pose proof (pow2_pos _ Hs) as H2.
  pose proof (normal_quotient a b Hdg) as Hnorm.
  set (sh := div_shift a b) in *.
  assert (Hq : 2 ^ 52 <= Z.pos a * 2 ^ sh / Z.pos b)
    by (apply Z.div_le_lower_bound; lia).
  assert (Hdg53 : 53 <= Zdigits2 (Z.pos a * 2 ^ sh / Z.pos b))
    by (apply Zdigits2_ge; lia).
  destruct (round_model_normal (xorb false false) (Z.pos a * 2 ^ sh) (Z.pos b)
              (- sh) ltac:(lia) Hnorm ltac:(lia))
    as [[E' _]|(m' & e' & E' & Hm & He' & Hw)];
    rewrite E' in E; [discriminate E|].
  injection E as _ <- <-.
  split; [exact Hm|].
  replace (e' - - sh) with (e' + sh) in Hw by lia.
  destruct (Z.leb_spec e' 0) as [He|He].
  - assert (Hsplit : 2 ^ sh = 2 ^ (e' + sh) * 2 ^ (- e')).
    { rewrite <- Z.pow_add_r by lia. f_equal. lia. }
    pose proof (pow2_pos (e' + sh) ltac:(lia)) as Hp.
    pose proof (pow2_pos (- e') ltac:(lia)) as Hp'.
    rewrite Hsplit in Hw.
    split; nia.
  - rewrite Z.pow_add_r in Hw by lia.
    pose proof (pow2_pos e' ltac:(lia)) as Hp.
    split; nia.
Qed.

End RoundingFacts.
(** * The score of a raw sum *)

Section ScoreFacts.

Import Binary64 Rounding RoundingFacts.

(** ** The float operations at known values *)

(** [1 / 3] is [0.3333333333333333]. *)
Example one_third :
  int_truediv 1 3 = Ok (S754_finite false 6004799503160661 (-54)).
Proof. reflexivity. Qed.

(** [(2 ** 53 + 1) / 1] is a tie and goes to the even neighbour. *)
Example quotient_tie_to_even :
  int_truediv (2 ^ 53 + 1) 1 = Ok (S754_finite false (2 ^ 52) 1).
Proof. reflexivity. Qed.

(** The largest finite float, and the smallest subnormal ones. *)
Example quotient_largest :
  int_truediv (2 ^ 1024 - 2 ^ 970 - 1) 1 = Ok (S754_finite false (2 ^ 53 - 1) 971).
Proof. vm_compute. reflexivity. Qed.

Example quotient_subnormal :
  int_truediv 3 (2 ^ 1075) = Ok (S754_finite false 2 (-1074)).
Proof. vm_compute. reflexivity. Qed.

(** [round(2.675, 2)] is [2.67]: the float of 2.675 lies below the tie. *)
Example round_2_675 : round2 (ieee_div_int 2675 1000) = ieee_div_int 267 100.
Proof. reflexivity. Qed.

(** [round(0.125, 2)] is [0.12] and [round(0.375, 2)] is [0.38]: exact ties
    go to the even digit. *)
Example round_0_125 : round2 (ieee_div_int 1 8) = ieee_div_int 12 100.
Proof. reflexivity. Qed.

Example round_0_375 : round2 (ieee_div_int 3 8) = ieee_div_int 38 100.
Proof. reflexivity. Qed.

(** [655 / 10000 * 100] is [6.550000000000001]; rounded to two places it is
    [6.55]. *)
Example scaled_655 : scaled 655 = S754_finite false 7374644389819188 (-50).
Proof. reflexivity. Qed.

Example unclamped_655 : unclamped 655 = S754_finite false 7374644389819187 (-50).
Proof. reflexivity. Qed.

(** ** At and above the saturation point *)

Lemma hundred_eq : hundred = S754_finite false (100 * 2 ^ 46) (-46).
Proof. reflexivity. Qed.

(** A non-negative float of magnitude at least 100 is not below [hundred]. *)
Lemma not_lt_hundred (x : spec_float) :
  has_sign false x -> mag_ge x 100 -> float_lt x hundred = false.
Proof.
  destruct x as [s|s| |s m e]; intros Hs Hg; simpl in Hs, Hg;
    try contradiction; subst s.
  - reflexivity.
  - destruct Hg as [Hm Hv]. rewrite hundred_eq. unfold float_lt, SFltb, SFcompare.
    destruct (Z.compare_spec e (-46)) as [E|E|E]; try reflexivity.
    + subst e. simpl in Hv. rewrite Pos.compare_cont_spec. simpl.
      destruct (Pos.compare_spec m (100 * 2 ^ 46)) as [H|H|H]; try reflexivity.
      exfalso. change (Z.pos m < 100 * 2 ^ 46) in H. lia.
    + exfalso. destruct (Z.ltb_spec e 0) as [_|]; [|lia].
      assert (2 ^ 47 <= 2 ^ (- e)) by (apply Z.pow_le_mono_r; lia).
      change (2 ^ 53) with (64 * 2 ^ 47) in Hm. nia.
Qed.

(** Multiplying a float of magnitude at least 1 by [hundred]. *)
Lemma float_mul_hundred_ge (s : bool) (x : spec_float) :
  has_sign s x -> mag_ge x 1 ->
  has_sign s (float_mul x hundred) /\ mag_ge (float_mul x hundred) 100.
Proof.
  destruct x as [s'|s'| |s' m e]; intros Hs Hg; simpl in Hs, Hg;
    try contradiction; subst s'.
  - destruct s; split; reflexivity || exact I.
  - destruct Hg as [Hm Hv]. unfold float_mul. rewrite hundred_eq, SFmul_model.
    rewrite xorb_false_r. split.
    + apply round_model_sign; lia.
    + apply round_model_ge; try lia.
      change (Z.pos (100 * 2 ^ 46)) with (100 * 2 ^ 46).
      destruct (Z.ltb_spec (e + -46) 0) as [H|H].
      * replace (- (e + -46)) with (46 - e) by lia.
        destruct (Z.ltb_spec e 0) as [He|He].
        -- replace (46 - e) with (46 + - e) by lia.
           rewrite Z.pow_add_r by lia. nia.
        -- pose proof (pow2_pos e He). pose proof (pow2_pos (46 - e) ltac:(lia)).
           assert (E : 2 ^ 46 = 2 ^ (46 - e) * 2 ^ e).
           { rewrite <- Z.pow_add_r by lia. f_equal. lia. }
           rewrite E. nia.
      * destruct (Z.ltb_spec e 0) as [He|He]; [lia|].
        replace e with (46 + (e + -46)) in Hv by lia.
        rewrite Z.pow_add_r in Hv by lia.
        pose proof (pow2_pos (e + -46) H). nia.
Qed.

(** Rounding to two places keeps a magnitude of at least 100. *)
Lemma round2_ge (s : bool) (x : spec_float) :
  has_sign s x -> mag_ge x 100 ->
  has_sign s (round2 x) /\ mag_ge (round2 x) 100.
Proof.
  destruct x as [s'|s'| |s' m e]; try (simpl; contradiction).
  - simpl. intros -> _. split; reflexivity || exact I.
  - intros Hs [Hm Hv]. simpl in Hs. subst s'. unfold round2.
    assert (Hq : 10000 <= scaled_hundredths m e).
    { unfold scaled_hundredths. destruct e as [|k|k].
      - simpl in Hv. lia.
      - destruct (Z.ltb_spec (Z.pos k) 0) as [|_]; [lia|].
        pose proof (pow2_pos (Z.pos k) ltac:(lia)). nia.
      - destruct (Z.ltb_spec (Z.neg k) 0) as [_|]; [|lia].
        change (- Z.neg k) with (Z.pos k) in Hv.
        change (Z.pow_pos 2 k) with (2 ^ Z.pos k).
        pose proof (pow2_pos (Z.pos k) ltac:(lia)) as H2.
        pose proof (round_half_even_bounds (Z.pos m * 100) (2 ^ Z.pos k) H2).
        assert (10000 <= Z.pos m * 100 / 2 ^ Z.pos k)
          by (apply Z.div_le_lower_bound; lia).
        lia. }
    destruct (scaled_hundredths m e) as [|q|q]; try lia.
    split.
    + pose proof (SFdiv_sign s false q 100) as H.
      rewrite xorb_false_r in H. exact H.
    + apply SFdiv_ge; [|lia|lia].
      change (Zdigits2 100) with 7. pose proof (Zdigits2_nonneg (Z.pos q)). lia.
Qed.

Lemma score_unfold (raw : Z) :
  score raw =
  match int_truediv raw 10000 with
  | Ok q => Ok (py_round_2 (py_min_100 (float_mul q hundred)))
  | Raise e => Raise e
  end.
Proof. reflexivity. Qed.

Lemma int_truediv_pos (a : positive) (b : positive) :
  int_truediv (Z.pos a) (Z.pos b) =
  match SFdiv prec emax (S754_finite false a 0) (S754_finite false b 0) with
  | S754_infinity _ => Raise OverflowError
  | q => Ok q
  end.
Proof. reflexivity. Qed.

Lemma int_truediv_neg (a : positive) (b : positive) :
  int_truediv (Z.neg a) (Z.pos b) =
  match SFdiv prec emax (S754_finite true a 0) (S754_finite false b 0) with
  | S754_infinity _ => Raise OverflowError
  | q => Ok q
  end.
Proof. reflexivity. Qed.

Lemma digits_10000 (a : positive) :
  Zdigits2 10000 - Zdigits2 (Z.pos a) <= 1021.
Proof.
  change (Zdigits2 10000) with 14. pose proof (Zdigits2_nonneg (Z.pos a)). lia.
Qed.

(** From 10000 up to the overflow bound the score is the integer 100. *)
Theorem score_saturated (raw : Z) :
  10000 <= raw < OVERFLOW_BOUND -> score raw = Ok (PInt 100).
Proof.
  intros [Hlo Hhi]. destruct raw as [|a|a]; try lia.
  rewrite score_unfold, int_truediv_pos.
  destruct (SFdiv_finite false false a 10000 (digits_10000 a) Hhi) as (m & e & E).
  pose proof (SFdiv_ge false false a 10000 1 (digits_10000 a) ltac:(lia) ltac:(lia))
    as Hge.
  rewrite E in *. simpl xorb.
  destruct (float_mul_hundred_ge false (S754_finite false m e) eq_refl Hge)
    as [Hs Hm].
  unfold py_min_100. rewrite (not_lt_hundred _ Hs Hm). reflexivity.
Qed.

(** From the overflow bound on, in magnitude, the division raises. *)
Theorem score_overflow (raw : Z) :
  OVERFLOW_BOUND <= Z.abs raw -> score raw = Raise OverflowError.
Proof.
  intros H. assert (0 < OVERFLOW_BOUND) by reflexivity.
  destruct raw as [|a|a]; try lia; rewrite score_unfold.
  - rewrite int_truediv_pos, (SFdiv_overflow false false a 10000); [reflexivity|].
    exact H.
  - rewrite int_truediv_neg, (SFdiv_overflow true false a 10000); [reflexivity|].
    exact H.
Qed.

(** The formula of the specification saturates as well. *)
Theorem spec_saturated (f p s t : Z) :
  10000 <= 3 * f + 2 * p + 4 * s + t -> spec_score f p s t = PInt 100.
Proof.
  intros H. unfold spec_score, ieee_div_int.
  destruct (3 * f + 2 * p + 4 * s + t) as [|a|a]; try lia.
  simpl exact_int.
  assert (Hdg : Zdigits2 100 - Zdigits2 (Z.pos a) <= 1021).
  { change (Zdigits2 100) with 7. pose proof (Zdigits2_nonneg (Z.pos a)). lia. }
  pose proof (SFdiv_ge false false a 100 100 Hdg ltac:(lia) ltac:(lia)) as Hge.
  pose proof (SFdiv_sign false false a 100) as Hs. simpl xorb in Hs.
  destruct (round2_ge false _ Hs Hge) as [Hs' Hge'].
  unfold py_min_100. rewrite (not_lt_hundred _ Hs' Hge'). reflexivity.
Qed.

(** ** Below zero *)

Lemma negative_lt_hundred (x : spec_float) :
  has_sign true x -> float_lt x hundred = true.
Proof. destruct x as [s|s| |s m e]; simpl; intros H; subst; reflexivity || contradiction. Qed.

Lemma round2_sign (s : bool) (x : spec_float) : has_sign s x -> has_sign s (round2 x).
Proof.
  destruct x as [s'|s'| |s' m e]; simpl; trivial.
  intros ->. destruct (scaled_hundredths m e) as [|q|q]; try reflexivity.
  pose proof (SFdiv_sign s false q 100) as H. rewrite xorb_false_r in H. exact H.
Qed.

Lemma float_mul_hundred_sign (s : bool) (x : spec_float) :
  has_sign s x -> has_sign s (float_mul x hundred).
Proof.
  destruct x as [s'|s'| |s' m e]; intros H; simpl in H; try contradiction;
    subst s'.
  - destruct s; reflexivity.
  - destruct s; reflexivity.
  - unfold float_mul. rewrite hundred_eq, SFmul_model, xorb_false_r.
    apply round_model_sign; lia.
Qed.

(** A negative raw sum above the overflow bound gives the unclamped float. *)
Theorem score_negative (raw : Z) :
  - OVERFLOW_BOUND < raw < 0 ->
  score raw = Ok (PFloat (unclamped raw)) /\ has_sign true (unclamped raw).
Proof.
  intros [Hlo Hhi]. destruct raw as [|a|a]; try lia.
  unfold OVERFLOW_BOUND, MAX_POSSIBLE_SCORE in Hlo.
  rewrite score_unfold, int_truediv_neg. unfold unclamped, scaled, ieee_div_int.
  simpl exact_int.
  destruct (SFdiv_finite true false a 10000 (digits_10000 a) ltac:(lia))
    as (m & e & E).
  change MAX_POSSIBLE_SCORE with 10000. simpl exact_int.
  rewrite E. simpl xorb.
  pose proof (float_mul_hundred_sign true (S754_finite true m e) eq_refl) as Hs.
  unfold py_min_100. rewrite (negative_lt_hundred _ Hs). simpl. split.
  - reflexivity.
  - apply round2_sign. exact Hs.
Qed.

(** From -10000 down, the unclamped float has magnitude at least 100. *)
Lemma unclamped_large_negative (raw : Z) :
  raw <= -10000 -> - OVERFLOW_BOUND < raw ->
  float_lt (unclamped raw) (S754_zero false) = true.
Proof.
  intros Hhi Hlo. destruct raw as [|a|a]; try lia.
  unfold unclamped, scaled, ieee_div_int. change MAX_POSSIBLE_SCORE with 10000.
  simpl exact_int.
  pose proof (SFdiv_ge true false a 10000 1 (digits_10000 a) ltac:(lia) ltac:(lia))
    as Hge.
  pose proof (SFdiv_sign true false a 10000) as Hs. simpl xorb in Hs.
  destruct (float_mul_hundred_ge true _ Hs Hge) as [Hs1 Hg1].
  destruct (round2_ge true _ Hs1 Hg1) as [Hs2 Hg2].
  destruct (round2 _) as [s|s| |s m e]; simpl in Hs2, Hg2; try contradiction;
    subst; reflexivity.
Qed.

(** ** Negation commutes with the operations *)

Lemma pack_opp (s : bool) (m e : Z) : pack (negb s) m e = SFopp (pack s m e).
Proof.
  unfold pack. destruct m as [|q|q]; try reflexivity.
  destruct (Z.pos q =? 2 ^ 53);
    match goal with |- context [if ?b then _ else _] => destruct b end;
    reflexivity.
Qed.

Lemma SFdiv_opp (s : bool) (a b : positive) :
  SFdiv prec emax (S754_finite (negb s) a 0) (S754_finite false b 0) =
  SFopp (SFdiv prec emax (S754_finite s a 0) (S754_finite false b 0)).
Proof.
  rewrite !SFdiv_model, !xorb_false_r. unfold round_model. apply pack_opp.
Qed.

Lemma float_mul_hundred_opp (x : spec_float) :
  float_mul (SFopp x) hundred = SFopp (float_mul x hundred).
Proof.
  destruct x as [[|]|[|]| |s m e]; try reflexivity.
  unfold float_mul. rewrite hundred_eq. cbn [SFopp].
  rewrite !SFmul_model, !xorb_false_r.
  unfold round_model. apply pack_opp.
Qed.

Lemma round2_opp (x : spec_float) : round2 (SFopp x) = SFopp (round2 x).
Proof.
  destruct x as [s|s| |s m e]; try reflexivity.
  cbn [SFopp round2].
  destruct (scaled_hundredths m e) as [|q|q]; try reflexivity.
  apply SFdiv_opp.
Qed.

Lemma ieee_div_int_opp (a b : positive) :
  ieee_div_int (Z.neg a) (Z.pos b) = SFopp (ieee_div_int (Z.pos a) (Z.pos b)).
Proof. apply (SFdiv_opp false). Qed.

Lemma unclamped_opp (a : positive) :
  unclamped (Z.neg a) = SFopp (unclamped (Z.pos a)).
Proof.
  unfold unclamped, scaled. change MAX_POSSIBLE_SCORE with 10000.
  rewrite ieee_div_int_opp, float_mul_hundred_opp, round2_opp. reflexivity.
Qed.

Lemma rounded_hundredth_opp (a : positive) :
  rounded_hundredth (Z.neg a) = SFopp (rounded_hundredth (Z.pos a)).
Proof.
  unfold rounded_hundredth. rewrite ieee_div_int_opp, round2_opp. reflexivity.
Qed.

(** ** Within the overflow bound *)

(** The calculator within the overflow bound: no exception. *)
Theorem score_in_range (raw : Z) :
  Z.abs raw < OVERFLOW_BOUND ->
  score raw = Ok (py_round_2 (py_min_100 (scaled raw))).
Proof.
  intros H. unfold OVERFLOW_BOUND, MAX_POSSIBLE_SCORE in H.
  rewrite score_unfold. unfold scaled, ieee_div_int.
  change MAX_POSSIBLE_SCORE with 10000.
  destruct raw as [|a|a]; [reflexivity| |].
  - rewrite int_truediv_pos. simpl exact_int.
    destruct (SFdiv_finite false false a 10000 (digits_10000 a) ltac:(lia))
      as (m & e & ->).
    reflexivity.
  - rewrite int_truediv_neg. simpl exact_int.
    destruct (SFdiv_finite true false a 10000 (digits_10000 a) ltac:(lia))
      as (m & e & ->).
    reflexivity.
Qed.

Lemma ieee_div_int_sign (a b : positive) :
  has_sign false (ieee_div_int (Z.pos a) (Z.pos b)).
Proof. apply (SFdiv_sign false false). Qed.

Lemma scaled_sign (a : positive) : has_sign false (scaled (Z.pos a)).
Proof.
  unfold scaled. apply float_mul_hundred_sign. apply ieee_div_int_sign.
Qed.

(** ** Sums up to [2 ^ 50]: both roundings recover the hundredths *)

Lemma pow2_le_inv (k c : Z) : 0 <= k -> 0 <= c -> 2 ^ c < 2 ^ k -> c < k.
Proof.
  intros Hk Hc H. destruct (Z_lt_le_dec c k) as [|Hge]; [assumption|exfalso].
  assert (2 ^ k <= 2 ^ c) by (apply Z.pow_le_mono_r; lia). lia.
Qed.

Lemma digits_100 (a : positive) : Zdigits2 100 - Zdigits2 (Z.pos a) <= 1021.
Proof.
  change (Zdigits2 100) with 7. pose proof (Zdigits2_nonneg (Z.pos a)). lia.
Qed.

Lemma overflow_factor_large : 2 ^ 50 < overflow_factor.
Proof. reflexivity. Qed.

(** The float of [a / 100]: within half a unit in the last place, which is
    below a hundredth. *)
Theorem quotient_shape (a : positive) :
  Z.pos a <= 2 ^ 50 ->
  exists m e,
    ieee_div_int (Z.pos a) 100 = S754_finite false m e /\
    2 ^ 52 <= Z.pos m < 2 ^ 53 /\ e < 0 /\ 100 < 2 ^ (- e) /\
    (2 * Z.pos m - 1) * 100 <= 2 * (Z.pos a * 2 ^ (- e)) <=
    (2 * Z.pos m + 1) * 100.
Proof.
  intros Ha. unfold ieee_div_int. simpl exact_int.
  pose proof overflow_factor_large as Hof.
  destruct (SFdiv_finite false false a 100 (digits_100 a) ltac:(lia))
    as (m & e & E).
  exists m, e. split; [exact E|].
  destruct (SFdiv_normal a 100 m e _ (digits_100 a) E) as [Hm Hw].
  destruct (Z.leb_spec e 0) as [He|He]; [|exfalso; pose proof (pow2_pos e); nia].
  pose proof (pow2_pos (- e) ltac:(lia)) as HE.
  assert (HX : Z.pos a * 2 ^ (- e) <= 2 ^ 50 * 2 ^ (- e)) by nia.
  assert (HE100 : 100 < 2 ^ (- e)) by lia.
  repeat split; try lia.
  destruct (Z.eq_dec e 0) as [->|]; [|lia].
  change (2 ^ (- 0)) with 1 in HE100. lia.
Qed.

Lemma quotient_near (a : positive) :
  Z.pos a <= 2 ^ 50 -> near_hundredth (ieee_div_int (Z.pos a) 100) (Z.pos a).
Proof.
  intros Ha. destruct (quotient_shape a Ha) as (m & e & E & Hm & He & HE & Hw).
  exists m, e. repeat split; try assumption; lia.
Qed.

(** The float of [(a / 10000) * 100]: two roundings, still within half a
    hundredth of [a / 100]. *)
Theorem scaled_near (a : positive) :
  Z.pos a <= 2 ^ 50 -> near_hundredth (scaled (Z.pos a)) (Z.pos a).
Proof.
  intros Ha. unfold scaled, ieee_div_int. change MAX_POSSIBLE_SCORE with 10000.
  simpl exact_int.
  pose proof overflow_factor_large as Hof.
  destruct (SFdiv_finite false false a 10000 (digits_10000 a) ltac:(lia))
    as (my & ey & E).
  rewrite E. simpl xorb.
  destruct (SFdiv_normal a 10000 my ey _ (digits_10000 a) E) as [Hmy Hw].
  destruct (Z.leb_spec ey 0) as [He|He]; [|exfalso; pose proof (pow2_pos ey); nia].
  pose proof (pow2_pos (- ey) ltac:(lia)) as HEy.
  assert (HXy : Z.pos a * 2 ^ (- ey) <= 2 ^ 50 * 2 ^ (- ey)) by nia.
  assert (Hlo : 2 ^ 15 < 2 ^ (- ey)) by lia.
  assert (Hhi : 2 ^ (- ey) < 2 ^ 67) by nia.
  apply pow2_le_inv in Hlo; try lia.
  assert (Hey : - ey < 67).
  { destruct (Z_lt_le_dec (- ey) 67) as [|Hge]; [assumption|exfalso].
    assert (2 ^ 67 <= 2 ^ (- ey)) by (apply Z.pow_le_mono_r; lia). lia. }
  unfold float_mul. rewrite hundred_eq, SFmul_model. simpl xorb.
  set (n := Z.pos my * Z.pos (100 * 2 ^ 46)).
  assert (Hn : 2 ^ 104 <= n < 2 ^ 106).
  { unfold n. change (Z.pos (100 * 2 ^ 46)) with (100 * 2 ^ 46). lia. }
  assert (Hdg : 105 <= Zdigits2 n <= 106).
  { split; [apply Zdigits2_ge|apply Zdigits2_le]; lia. }
  assert (Hn1 : n / 1 = n) by apply Z.div_1_r.
  destruct (round_model_normal false n 1 (ey + -46) ltac:(lia) ltac:(lia)
              ltac:(lia))
    as [[_ Hinf]|(m & e & Er & Hm & Hrange & Hmw)];
    [rewrite Hn1 in Hinf; lia|].
  rewrite Er. rewrite Hn1 in Hrange.
  exists m, e. split; [reflexivity|]. split; [exact Hm|].
  assert (He8 : e < 0) by lia. split; [exact He8|].
  pose proof (pow2_pos (- e) ltac:(lia)) as HE.
  assert (Hsplit : 2 ^ (- ey) = 2 ^ (- e) * 2 ^ (e - ey)).
  { rewrite <- Z.pow_add_r by lia. f_equal. lia. }
  assert (H46 : 2 ^ (e - (ey + -46)) = 2 ^ (e - ey) * 2 ^ 46).
  { rewrite <- Z.pow_add_r by lia. f_equal. lia. }
  rewrite H46 in Hmw. unfold n in Hmw.
  change (Z.pos (100 * 2 ^ 46)) with (100 * 2 ^ 46) in Hmw.
  rewrite Hsplit in Hw, HXy.
  assert (HXG : forall G, Z.pos a * (2 ^ (- e) * G) = Z.pos a * 2 ^ (- e) * G)
    by (intros; ring).
  rewrite HXG in Hw, HXy.
  assert (HG : e - ey = 6 \/ e - ey = 7 \/ e - ey = 8) by lia.
  destruct HG as [HG|[HG|HG]]; rewrite HG in *; lia.
Qed.

(** [round2] of a float near [a / 100] is the float of [a / 100]. *)
Lemma round2_near (x : spec_float) (a : positive) :
  near_hundredth x (Z.pos a) -> round2 x = ieee_div_int (Z.pos a) 100.
Proof.
  intros (m & e & -> & Hm & He & Hw).
  assert (H : scaled_hundredths m e = Z.pos a).
  { destruct e as [|k|k]; try lia. unfold scaled_hundredths.
    change (Z.pow_pos 2 k) with (2 ^ (- Z.neg k)).
    pose proof (pow2_pos (- Z.neg k) ltac:(lia)).
    apply round_half_even_eq; lia. }
  unfold round2. rewrite H. reflexivity.
Qed.

(** Up to [2 ^ 50], rounding [(a / 10000) * 100] to two places gives
    [round(a / 100, 2)], the float nearest to [a / 100]. *)
Theorem unclamped_is_hundredth (a : positive) :
  Z.pos a <= 2 ^ 50 ->
  unclamped (Z.pos a) = ieee_div_int (Z.pos a) 100 /\
  rounded_hundredth (Z.pos a) = ieee_div_int (Z.pos a) 100.
Proof.
  intros Ha. split.
  - apply round2_near, scaled_near, Ha.
  - apply round2_near, quotient_near, Ha.
Qed.

(** A float near [a / 100] with [a < 10000] is below [hundred]. *)
Lemma near_lt_hundred (x : spec_float) (a : Z) :
  near_hundredth x a -> a < 10000 -> float_lt x hundred = true.
Proof.
  intros (m & e & -> & Hm & He & Hw) Ha. rewrite hundred_eq.
  unfold float_lt, SFltb, SFcompare.
  pose proof (pow2_pos (- e) ltac:(lia)) as HE.
  assert (Hlt : 200 * Z.pos m < 19999 * 2 ^ (- e)) by nia.
  assert (H46 : 46 <= - e).
  { destruct (Z_le_gt_dec 46 (- e)) as [|Hgt]; [assumption|exfalso].
    assert (2 ^ (- e) <= 2 ^ 45) by (apply Z.pow_le_mono_r; lia). lia. }
  destruct (Z.compare_spec e (-46)) as [E|E|E]; try reflexivity; try lia.
  subst e. rewrite Pos.compare_cont_spec. simpl.
  destruct (Pos.compare_spec m (100 * 2 ^ 46)) as [H|H|H]; try reflexivity.
  - exfalso. rewrite H in Hlt. change (2 ^ (- -46)) with (2 ^ 46) in Hlt.
    change (Z.pos (100 * 2 ^ 46)) with (100 * 2 ^ 46) in Hlt. lia.
  - exfalso. change (100 * 2 ^ 46 < Z.pos m) in H.
    change (2 ^ (- -46)) with (2 ^ 46) in Hlt. lia.
Qed.

(** The float of [a / 100] does not exceed the integer 100 below 10000. *)
Lemma quotient_le_100 (a : positive) :
  Z.pos a < 10000 ->
  num_leb (PFloat (ieee_div_int (Z.pos a) 100)) (PInt 100) = true.
Proof.
  intros Ha.
  destruct (quotient_near a ltac:(lia)) as (m & e & -> & Hm & He & Hw).
  pose proof (pow2_pos (- e) ltac:(lia)) as HE.
  unfold num_leb, float_cmp_int.
  destruct e as [|k|k]; try lia.
  change (Z.pow_pos 2 k) with (2 ^ (- Z.neg k)).
  destruct (Z.compare_spec (Z.pos m) (100 * 2 ^ (- Z.neg k))); try reflexivity.
  nia.
Qed.

Lemma float_le_refl_finite (s : bool) (m : positive) (e : Z) :
  float_le (S754_finite s m e) (S754_finite s m e) = true.
Proof.
  unfold float_le, SFleb, SFcompare. rewrite Z.compare_refl.
  rewrite Pos.compare_cont_spec, Pos.compare_refl. destruct s; reflexivity.
Qed.

(** The floats of [a / 100] are ordered as the integers [a]. *)
Theorem quotient_monotone (a a' : positive) :
  Z.pos a <= Z.pos a' -> Z.pos a' <= 2 ^ 50 ->
  float_le (ieee_div_int (Z.pos a) 100) (ieee_div_int (Z.pos a') 100) = true.
Proof.
  intros Hle Ha'.
  destruct (Z.eq_dec (Z.pos a) (Z.pos a')) as [Eq|Ne].
  { injection Eq as <-.
    destruct (quotient_shape a ltac:(lia)) as (m & e & -> & _).
    apply float_le_refl_finite. }
  destruct (quotient_shape a ltac:(lia)) as (m & e & -> & Hm & He & HE & Hw).
  destruct (quotient_shape a' Ha') as (m' & e' & -> & Hm' & He' & HE' & Hw').
  unfold float_le, SFleb, SFcompare.
  assert (Hstep : 2 * (Z.pos a * 2 ^ (- e')) + 2 * 2 ^ (- e') <=
                  2 * (Z.pos a' * 2 ^ (- e'))) by nia.
  destruct (Z.compare_spec e e') as [E|E|E]; try reflexivity.
  - subst e'. rewrite Pos.compare_cont_spec. simpl.
    destruct (Pos.compare_spec m m') as [H|H|H]; try reflexivity.
    exfalso. change (Z.pos m' < Z.pos m) in H. lia.
  - exfalso.
    assert (Hsplit : 2 ^ (- e') = 2 ^ (- e) * 2 ^ (e - e')).
    { rewrite <- Z.pow_add_r by lia. f_equal. lia. }
    assert (HT : 2 <= 2 ^ (e - e')).
    { change 2 with (2 ^ 1) at 1. apply Z.pow_le_mono_r; lia. }
    pose proof (pow2_pos (- e) ltac:(lia)) as Hp.
    set (T := 2 ^ (e - e')) in *. set (X := Z.pos a * 2 ^ (- e)) in *.
    assert (HX : Z.pos a * 2 ^ (- e') = X * T) by (rewrite Hsplit; unfold X; ring).
    rewrite HX in Hstep.
    assert (H1 : (2 * Z.pos m - 1) * 100 * T <= 2 * X * T)
      by (apply Z.mul_le_mono_nonneg_r; lia).
    assert (H2 : (2 * Z.pos m - 1) * 100 * 2 <= (2 * Z.pos m - 1) * 100 * T)
      by (apply Z.mul_le_mono_nonneg_l; lia).
    lia.
Qed.

(** ** Below the saturation point *)

Lemma small_positive_facts (a : positive) :
  Z.pos a < 10000 ->
  score (Z.pos a) = Ok (PFloat (ieee_div_int (Z.pos a) 100)) /\
  unclamped (Z.pos a) = ieee_div_int (Z.pos a) 100 /\
  rounded_hundredth (Z.pos a) = ieee_div_int (Z.pos a) 100 /\
  float_lt (ieee_div_int (Z.pos a) 100) hundred = true.
Proof.
  intros Ha. destruct (unclamped_is_hundredth a ltac:(lia)) as [Eu Er].
  repeat split; try assumption.
  - rewrite score_in_range
      by (apply Z.lt_trans with 10000; [assumption|reflexivity]).
    unfold py_min_100.
    rewrite (near_lt_hundred _ _ (scaled_near a ltac:(lia)) Ha). simpl.
    fold (unclamped (Z.pos a)). rewrite Eu. reflexivity.
  - apply (near_lt_hundred _ (Z.pos a)); [apply quotient_near; lia|assumption].
Qed.

Lemma small_facts (r : Z) :
  0 <= r < 10000 ->
  score r = Ok (PFloat (unclamped r)) /\
  unclamped r = rounded_hundredth r /\
  float_lt (unclamped r) hundred = true /\
  num_leb (PFloat (unclamped r)) (PInt 100) = true.
Proof.
  intros H. destruct r as [|a|a]; try lia.
  - repeat split; reflexivity.
  - destruct (small_positive_facts a ltac:(lia)) as (E & Eu & Er & Hlt).
    rewrite Eu, Er. repeat split; try assumption.
    apply quotient_le_100. lia.
Qed.

Lemma small_monotone (r r' : Z) :
  0 <= r <= r' -> r' < 10000 ->
  float_le (unclamped r) (unclamped r') = true.
Proof.
  intros [H0 Hle] Hr'.
  destruct r' as [|a'|a']; try lia.
  - replace r with 0 by lia. reflexivity.
  - destruct (unclamped_is_hundredth a' ltac:(lia)) as [-> _].
    destruct r as [|a|a]; try lia.
    + destruct (quotient_shape a' ltac:(lia)) as (m & e & -> & _). reflexivity.
    + destruct (unclamped_is_hundredth a ltac:(lia)) as [-> _].
      apply quotient_monotone; lia.
Qed.

Lemma small_negative_facts (r : Z) :
  - 2 ^ 50 <= r < 0 ->
  unclamped r = rounded_hundredth r /\
  float_lt (unclamped r) (S754_zero false) = true.
Proof.
  intros H. destruct r as [|a|a]; try lia.
  destruct (unclamped_is_hundredth a ltac:(lia)) as [Eu Er].
  rewrite unclamped_opp, rounded_hundredth_opp, Eu, Er. split; [reflexivity|].
  destruct (quotient_shape a ltac:(lia)) as (m & e & -> & _). reflexivity.
Qed.

(** The score never decreases along the raw sum. *)
Theorem score_monotone (r r' : Z) (v' : pynum) :
  0 <= r <= r' -> score r' = Ok v' ->
  exists v, score r = Ok v /\ num_leb v v' = true.
Proof.
  intros [H0 Hle] Hv'.
  assert (Hb : r' < OVERFLOW_BOUND).
  { destruct (Z_lt_le_dec r' OVERFLOW_BOUND) as [|Hge]; [assumption|].
    rewrite score_overflow in Hv' by lia. discriminate Hv'. }
  destruct (Z_lt_le_dec r' 10000) as [Hs'|Hs'].
  - destruct (small_facts r ltac:(lia)) as (E & _).
    destruct (small_facts r' ltac:(lia)) as (E' & _).
    rewrite E' in Hv'. injection Hv' as <-.
    exists (PFloat (unclamped r)). split; [assumption|].
    simpl. apply small_monotone; lia.
  - rewrite score_saturated in Hv' by lia. injection Hv' as <-.
    destruct (Z_lt_le_dec r 10000) as [Hs|Hs].
    + destruct (small_facts r ltac:(lia)) as (E & _ & _ & Hn).
      exists (PFloat (unclamped r)). split; assumption.
    + exists (PInt 100). split; [|reflexivity].
      apply score_saturated. lia.
Qed.

End ScoreFacts.
(** * Properties of the score calculator *)

Section Calculator.

Variables profile : list (string * json).
Variables repos : list (list (string * json)).
Variables f p s t : Z.

Hypothesis followers_read : int_field profile "followers" = Some f.
Hypothesis public_repos_read : int_field profile "public_repos" = Some p.
Hypothesis stars_read : sum_ints repos "stargazers_count" = Some s.
Hypothesis forks_read : sum_ints repos "forks_count" = Some t.

Lemma py_get_int_field (fields : list (string * json)) (k : string) (z : Z) :
  int_field fields k = Some z -> py_get (JObj fields) k (JInt 0) = Ok (JInt z).
Proof.
  unfold int_field, py_get.
  destruct (assoc_get fields k) as [[]|]; intros H; try discriminate H;
    injection H as <-; reflexivity.
Qed.

Lemma sum_field_ints (l : list (list (string * json))) (k : string) :
  forall (acc total : Z),
  sum_ints l k = Some total ->
  fold_left (sum_step k) (map JObj l) (Ok acc) = Ok (acc + total).
Proof.
  induction l as [|r l IH]; intros acc total H; cbn [map fold_left sum_ints] in *.
  - injection H as <-. f_equal. lia.
  - destruct (int_field r k) as [z|] eqn:Ez; [|discriminate H].
    destruct (sum_ints l k) as [rest|]; [|discriminate H].
    injection H as <-.
    assert (E : sum_step k (Ok acc) (JObj r) = Ok (acc + z)).
    { unfold sum_step. cbn [rbind].
      rewrite (py_get_int_field r k z Ez). reflexivity. }
    rewrite E, (IH (acc + z) rest eq_refl). f_equal. lia.
Qed.

(** On integer documents the calculator is [score] of the weighted sum. *)
Lemma calculate_gitworth_ints :
  calculate_gitworth (JObj profile) (JArr (map JObj repos)) =
  score (raw_score f p s t).
Proof.
  unfold calculate_gitworth.
  rewrite (py_get_int_field _ _ _ followers_read). cbn [rbind].
  rewrite (py_get_int_field _ _ _ public_repos_read). cbn [rbind].
  unfold sum_field. cbn [py_iter rbind].
  rewrite (sum_field_ints repos _ 0 s stars_read).
  rewrite (sum_field_ints repos _ 0 t forks_read).
  reflexivity.
Qed.

Lemma raw_score_formula : raw_score f p s t = 3 * f + 2 * p + 4 * s + t.
Proof. unfold raw_score. ring. Qed.

(** C2, as amended: for non-negative counts whose weighted sum is below the
    overflow bound, the calculator returns
    [min(100, round((3f + 2p + 4s + t) / 100, 2))]. *)
Theorem score_is_formula :
  0 <= f -> 0 <= p -> 0 <= s -> 0 <= t ->
  raw_score f p s t < OVERFLOW_BOUND ->
  calculate_gitworth (JObj profile) (JArr (map JObj repos)) =
  Ok (spec_score f p s t).
Proof.
  intros Hf Hp Hs Ht Hb. rewrite calculate_gitworth_ints.
  assert (H0 : 0 <= raw_score f p s t) by (unfold raw_score; lia).
  destruct (Z_lt_le_dec (raw_score f p s t) 10000) as [Hsmall|Hbig].
  - destruct (small_facts (raw_score f p s t) ltac:(lia)) as (E & Er & Hl & _).
    rewrite E. unfold spec_score. rewrite <- raw_score_formula.
    fold (rounded_hundredth (raw_score f p s t)). rewrite <- Er.
    unfold py_min_100. rewrite Hl. reflexivity.
  - rewrite score_saturated by lia.
    rewrite spec_saturated by (rewrite <- raw_score_formula; lia).
    reflexivity.
Qed.

(** C7, as amended: a weighted sum from 10000 up to the overflow bound gives
    exactly 100. *)
Theorem saturates_at_100 :
  0 <= f -> 0 <= p -> 0 <= s -> 0 <= t ->
  10000 <= raw_score f p s t < OVERFLOW_BOUND ->
  calculate_gitworth (JObj profile) (JArr (map JObj repos)) = Ok (PInt 100).
Proof.
  intros _ _ _ _ H. rewrite calculate_gitworth_ints.
  apply score_saturated. exact H.
Qed.

(** C9, as amended: a negative weighted sum above the overflow bound gives
    [round((raw / 10000) * 100, 2)] as the floats compute it, a value below
    0 that neither [min] nor a clamp changes; from [- 2 ^ 50] up that value
    is [round(raw / 100, 2)]. *)
Theorem negative_not_clamped :
  - OVERFLOW_BOUND < raw_score f p s t < 0 ->
  calculate_gitworth (JObj profile) (JArr (map JObj repos)) =
    Ok (PFloat (unclamped (raw_score f p s t))) /\
  Binary64.float_lt (unclamped (raw_score f p s t)) (S754_zero false) = true /\
  (- 2 ^ 50 <= raw_score f p s t ->
   unclamped (raw_score f p s t) = rounded_hundredth (raw_score f p s t)).
Proof.
  intros H. rewrite calculate_gitworth_ints.
  destruct (score_negative _ H) as [E _]. split; [exact E|]. split.
  - destruct (Z_lt_le_dec (-10000) (raw_score f p s t)) as [Hs|Hs].
    + apply small_negative_facts. lia.
    + apply unclamped_large_negative; lia.
  - intros Hs. apply small_negative_facts. lia.
Qed.

End Calculator.

Section Monotone.

Variables profile profile' : list (string * json).
Variables repos repos' : list (list (string * json)).
Variables f p s t f' p' s' t' : Z.

Hypothesis followers_read : int_field profile "followers" = Some f.
Hypothesis public_repos_read : int_field profile "public_repos" = Some p.
Hypothesis stars_read : sum_ints repos "stargazers_count" = Some s.
Hypothesis forks_read : sum_ints repos "forks_count" = Some t.
Hypothesis followers_read' : int_field profile' "followers" = Some f'.
Hypothesis public_repos_read' : int_field profile' "public_repos" = Some p'.
Hypothesis stars_read' : sum_ints repos' "stargazers_count" = Some s'.
Hypothesis forks_read' : sum_ints repos' "forks_count" = Some t'.

(** C8: for non-negative counts, raising any of the four inputs never lowers
    the returned score: whenever the calculator returns at the larger inputs
    it returns at the smaller ones, with a score that is not greater; and it
    returns whenever the larger weighted sum is below the overflow bound. *)
Theorem score_non_decreasing :
  0 <= f <= f' -> 0 <= p <= p' -> 0 <= s <= s' -> 0 <= t <= t' ->
  (forall v',
     calculate_gitworth (JObj profile') (JArr (map JObj repos')) = Ok v' ->
     exists v,
       calculate_gitworth (JObj profile) (JArr (map JObj repos)) = Ok v /\
       num_leb v v' = true) /\
  (raw_score f' p' s' t' < OVERFLOW_BOUND ->
   exists v', calculate_gitworth (JObj profile') (JArr (map JObj repos')) = Ok v').
Proof.
  intros Hf Hp Hs Ht.
  rewrite (calculate_gitworth_ints profile repos f p s t) by assumption.
  rewrite (calculate_gitworth_ints profile' repos' f' p' s' t') by assumption.
  assert (H0 : 0 <= raw_score f p s t <= raw_score f' p' s' t')
    by (unfold raw_score; lia).
  split.
  - intros v'. apply score_monotone. exact H0.
  - intros Hb. destruct (Z_lt_le_dec (raw_score f' p' s' t') 10000) as [Hsm|Hbig].
    + destruct (small_facts (raw_score f' p' s' t') ltac:(lia)) as (E & _).
      eauto.
    + rewrite score_saturated by lia. eauto.
Qed.

End Monotone.

(** ** The calculator at concrete inputs *)

(** The scenario of the specification gives 6.55. *)
Lemma score_is_formula_witness :
  calculate_gitworth octocat_profile octocat_repos = Ok (spec_score 100 20 75 15).
Proof.
  apply (score_is_formula
           [("login", JStr "octocat"); ("name", JStr "The Octocat");
            ("followers", JInt 100); ("public_repos", JInt 20)]
           [[("stargazers_count", JInt 50); ("forks_count", JInt 10)];
            [("stargazers_count", JInt 25); ("forks_count", JInt 5)]]
           100 20 75 15); try reflexivity; lia.
Defined.

(** C2 as stated fails on a follower count of [10 ^ 320]: the formula gives
    100, the calculator raises [OverflowError]. *)
Lemma formula_fails_on_huge_sum :
  0 <= 10 ^ 320 /\
  spec_score (10 ^ 320) 0 0 0 = PInt 100 /\
  calculate_gitworth
    (JObj [("followers", JInt (10 ^ 320)); ("public_repos", JInt 0)]) (JArr []) =
  Raise OverflowError /\
  calculate_gitworth
    (JObj [("followers", JInt (10 ^ 320)); ("public_repos", JInt 0)]) (JArr []) <>
  Ok (spec_score (10 ^ 320) 0 0 0).
Proof.
  split; [lia|]. split; [vm_compute; reflexivity|].
  assert (E : calculate_gitworth
                (JObj [("followers", JInt (10 ^ 320)); ("public_repos", JInt 0)])
                (JArr []) = Raise OverflowError) by (vm_compute; reflexivity).
  split; [exact E|]. rewrite E. discriminate.
Qed.

Lemma saturates_at_100_witness :
  calculate_gitworth
    (JObj [("followers", JInt 3000); ("public_repos", JInt 500)])
    (JArr [JObj [("stargazers_count", JInt 1)]]) = Ok (PInt 100).
Proof.
  apply (saturates_at_100
           [("followers", JInt 3000); ("public_repos", JInt 500)]
           [[("stargazers_count", JInt 1)]] 3000 500 1 0);
    try reflexivity; try lia.
  split; [vm_compute; discriminate|reflexivity].
Defined.

(** C7 as stated fails on a star count of [2 ^ 1040]: the weighted sum is
    above 10000 and the calculator raises [OverflowError]. *)
Lemma saturation_fails_on_huge_sum :
  10000 <= raw_score 0 0 (2 ^ 1040) 0 /\
  calculate_gitworth (JObj [])
    (JArr [JObj [("stargazers_count", JInt (2 ^ 1040))]]) = Raise OverflowError.
Proof.
  split; [vm_compute; discriminate|vm_compute; reflexivity].
Qed.

Lemma negative_not_clamped_witness :
  calculate_gitworth (JObj [("followers", JInt (-1))]) (JArr []) =
    Ok (PFloat (unclamped (-3))) /\
  Binary64.float_lt (unclamped (-3)) (S754_zero false) = true /\
  (- 2 ^ 50 <= -3 -> unclamped (-3) = rounded_hundredth (-3)).
Proof.
  apply (negative_not_clamped [("followers", JInt (-1))] [] (-1) 0 0 0);
    try reflexivity.
  split; reflexivity.
Defined.

(** C9 as stated fails on the weighted sum -10000000000000002: the
    calculator returns -100000000000000.03125, while [round(raw / 100, 2)]
    is -100000000000000.015625. *)
Lemma negative_differs_from_hundredth :
  raw_score (-3333333333333334) 0 0 0 = -10000000000000002 /\
  calculate_gitworth (JObj [("followers", JInt (-3333333333333334))]) (JArr []) =
    Ok (PFloat (S754_finite true 6400000000000002 (-6))) /\
  rounded_hundredth (-10000000000000002) =
    S754_finite true 6400000000000001 (-6).
Proof. repeat split; vm_compute; reflexivity. Qed.

Lemma score_non_decreasing_witness :
  (forall v',
     calculate_gitworth (JObj [("followers", JInt 101); ("public_repos", JInt 20)])
       (JArr []) = Ok v' ->
     exists v,
       calculate_gitworth (JObj [("followers", JInt 100); ("public_repos", JInt 20)])
         (JArr []) = Ok v /\
       num_leb v v' = true) /\
  (raw_score 101 20 0 0 < OVERFLOW_BOUND ->
   exists v',
     calculate_gitworth (JObj [("followers", JInt 101); ("public_repos", JInt 20)])
       (JArr []) = Ok v').
Proof.
  apply (score_non_decreasing
           [("followers", JInt 100); ("public_repos", JInt 20)]
           [("followers", JInt 101); ("public_repos", JInt 20)]
           [] [] 100 20 0 0 101 20 0 0); try reflexivity; lia.
Defined.
(** * Properties of the request handler *)

Section Handler.

Variable cfg : config.
Variable user : string.

Lemma length_snoc (l : list string) (x : string) :
  length (l ++ [x]) = S (length l).
Proof. rewrite length_app. simpl. lia. Qed.

(** The handler when both calls respond: the branch on the two statuses. *)
Lemma get_profile_both_respond (w : world) (rp rr : response) :
  both_respond cfg user w rp rr ->
  fst (get_profile cfg user w) =
    if (status_code rp =? 200) && (status_code rr =? 200)
    then caught (success_branch rp rr)
    else if status_code rp =? 403
         then Ok (jsonify_error rate_limit_message 403)
         else Ok (jsonify_error "User not found" 404).
Proof.
  intros [Hp Hr].
  unfold get_profile, try_except, bind, requests_get; simpl.
  rewrite Hp; simpl. rewrite length_snoc, Hr; simpl.
  destruct ((status_code rp =? 200) && (status_code rr =? 200)).
  - unfold lift, caught.
    destruct (success_branch rp rr) as [r|[]]; reflexivity.
  - destruct (status_code rp =? 403); reflexivity.
Qed.

(** C3: a profile response with status 403 gives the rate-limit error record
    with status 403, whatever the status of the repositories response. *)
Theorem profile_403_rate_limited (w : world) (rp rr : response) :
  both_respond cfg user w rp rr ->
  status_code rp = 403 ->
  fst (get_profile cfg user w) =
    Ok {| body := ErrorRecord "GitHub API rate limit exceeded. Try again later.";
          status := 403 |}.
Proof.
  intros Hb H403. rewrite (get_profile_both_respond w rp rr Hb), H403.
  reflexivity.
Qed.

(** C4: a successful profile response with a repositories response of a
    non-success status (403 included) gives the "User not found" error record
    with status 404, never the 403 reply. *)
Theorem repos_failure_not_found (w : world) (rp rr : response) :
  both_respond cfg user w rp rr ->
  is_success (status_code rp) = true ->
  is_success (status_code rr) = false ->
  fst (get_profile cfg user w) =
    Ok {| body := ErrorRecord "User not found"; status := 404 |}.
Proof.
  intros Hb Hp Hr. rewrite (get_profile_both_respond w rp rr Hb).
  unfold is_success in Hp, Hr.
  destruct (Z.eqb_spec (status_code rr) 200) as [E|_].
  - rewrite E in Hr. discriminate Hr.
  - rewrite andb_false_r.
    destruct (Z.eqb_spec (status_code rp) 403) as [E|_]; [|reflexivity].
    rewrite E in Hp. discriminate Hp.
Qed.

(** C6: a transport failure of either outbound call gives an error record
    holding the failure's description, with status 500. *)
Theorem transport_failure_500 (w : world) (d : string) :
  transport_failure cfg user w d ->
  fst (get_profile cfg user w) = Ok {| body := ErrorRecord d; status := 500 |}.
Proof.
  intros [Hp|[rp [Hp Hr]]];
    unfold get_profile, try_except, bind, requests_get; simpl;
    rewrite Hp; simpl; [reflexivity|].
  rewrite length_snoc, Hr. reflexivity.
Qed.

(** The success branch by what the two bodies are. *)
Lemma success_branch_cases (rp rr : response) :
  match content rp, content rr with
  | Document profile_data, Document repos_data =>
      success_branch rp rr = summarize profile_data repos_data
  | Document _, Malformed d => success_branch rp rr = Raise (RequestException d)
  | Malformed d, _ => success_branch rp rr = Raise (RequestException d)
  end.
Proof.
  unfold success_branch, json_of.
  destruct (content rp), (content rr); reflexivity.
Qed.


Lemma summarize_shape (profile_data repos_data : json) (r : reply) :
  summarize profile_data repos_data = Ok r ->
  exists p, r = {| body := Summary p; status := 200 |}.
Proof.
  unfold summarize.
  destruct (calculate_gitworth _ _); simpl; [|discriminate].
  destruct (py_get_none profile_data "login"); simpl; [|discriminate].
  destruct (py_get_none profile_data "name"); simpl; [|discriminate].
  destruct (py_get_none profile_data "followers"); simpl; [|discriminate].
  destruct (py_get_none profile_data "public_repos"); simpl; [|discriminate].
  destruct (sum_field repos_data "stargazers_count"); simpl; [|discriminate].
  destruct (sum_field repos_data "forks_count"); simpl; [|discriminate].
  intros H. injection H as <-. eexists. reflexivity.
Qed.


Lemma success_branch_shape (rp rr : response) (r : reply) :
  success_branch rp rr = Ok r ->
  exists p, r = {| body := Summary p; status := 200 |}.
Proof.
  pose proof (success_branch_cases rp rr) as Hc. intros Hr.
  destruct (content rp) as [pd|d]; [|rewrite Hc in Hr; discriminate Hr].
  destruct (content rr) as [rd|d]; [|rewrite Hc in Hr; discriminate Hr].
  rewrite Hc in Hr. exact (summarize_shape _ _ _ Hr).
Qed.


End Handler.

Lemma profile_403_rate_limited_witness :
  fst (get_profile default_config "octocat"
         (fresh_world (two_responses (status_response 403) (status_response 200)))) =
  Ok {| body := ErrorRecord "GitHub API rate limit exceeded. Try again later.";
        status := 403 |}.
Proof.
  apply (profile_403_rate_limited default_config "octocat" _
           (status_response 403) (status_response 200)).
  - split; reflexivity.
  - reflexivity.
Defined.

Lemma repos_failure_not_found_witness :
  fst (get_profile default_config "octocat"
         (fresh_world (two_responses (ok_response octocat_profile) (status_response 403)))) =
  Ok {| body := ErrorRecord "User not found"; status := 404 |}.
Proof.
  apply (repos_failure_not_found default_config "octocat" _
           (ok_response octocat_profile) (status_response 403)).
  - split; reflexivity.
  - reflexivity.
  - reflexivity.
Defined.

Lemma transport_failure_500_witness :
  fst (get_profile default_config "octocat"
         (fresh_world (fun n _ => match n with
                                  | O => Responded (ok_response octocat_profile)
                                  | S _ => Failed "Connection refused"
                                  end))) =
  Ok {| body := ErrorRecord "Connection refused"; status := 500 |}.
Proof.
  apply (transport_failure_500 default_config "octocat").
  right. exists (ok_response octocat_profile). split; reflexivity.
Defined.

(** The scenario of the specification: 100 followers, 20 repositories, 75
    stars and 15 forks give the raw score 655 and the reply score 6.55, the
    float nearest to it. *)
Example scenario_655 :
  fst (get_profile default_config "octocat" (fresh_world octocat_upstream)) =
  Ok {| body := Summary {| username := JStr "octocat"; name := JStr "The Octocat";
                           followers := JInt 100; public_repos := JInt 20;
                           stars_received := 75; forks_received := 15;
                           gitworth_score :=
                             PFloat (S754_finite false 7374644389819187 (-50)) |};
        status := 200 |}.
Proof. vm_compute. reflexivity. Qed.



(** C5 fails on a profile document without the two counts: the calculator
    reads them as 0, the reply carries them as null. *)
Theorem absent_counts_are_null :
  fst (get_profile default_config "octocat"
         (fresh_world (two_responses (ok_response sparse_profile)
                                     (ok_response (JArr []))))) =
  Ok {| body := Summary {| username := JStr "octocat"; name := JNull;
                           followers := JNull; public_repos := JNull;
                           stars_received := 0; forks_received := 0;
                           gitworth_score := PFloat (S754_zero false) |};
        status := 200 |}.
Proof. vm_compute. reflexivity. Qed.

(** ** Dispatch and the cache *)

(** The view Flask dispatches to is the function as written: [app.route]
    registered it before [cache.memoize] wrapped it. *)
Lemma dispatch_is_undecorated (cfg : config) (user : string) (w : world) :
  handle_request (app cfg) user w =
  match get_profile cfg user w with
  | (Ok r, w') => (r, w')
  | (Raise _, w') => ({| body := InternalServerError; status := 500 |}, w')
  end.
Proof. reflexivity. Qed.

(** The handler leaves the clock and the cache store alone and always issues
    the profile GET. *)
Lemma get_profile_effects (cfg : config) (user : string) (w : world) :
  now (snd (get_profile cfg user w)) = now w /\
  cache_store (snd (get_profile cfg user w)) = cache_store w /\
  exists rest,
    calls (snd (get_profile cfg user w)) = calls w ++ profile_url cfg user :: rest.
Proof.
  assert (Hboth : exists rest,
            (calls w ++ [profile_url cfg user]) ++ [repos_url cfg user] =
            calls w ++ profile_url cfg user :: rest).
  { exists [repos_url cfg user]. rewrite <- app_assoc. reflexivity. }
  unfold get_profile, try_except, bind, requests_get, ret, lift.
  destruct (upstream w (length (calls w)) (profile_url cfg user)) as [rp|d];
    cbn [calls upstream];
    [|repeat split; exists []; reflexivity].
  destruct (upstream w (length (calls w ++ [profile_url cfg user]))
              (repos_url cfg user)) as [rr|d];
    [|repeat split; exact Hboth].
  destruct ((status_code rp =? 200) && (status_code rr =? 200)).
  - destruct (success_branch rp rr) as [r|[]];
      repeat split; exact Hboth.
  - destruct (status_code rp =? 403); repeat split; exact Hboth.
Qed.

(** Every dispatched request issues the profile GET, whatever the clock and
    the cache store hold; the cache store is never written. *)
Theorem every_request_fetches (cfg : config) (user : string) (w : world) :
  cache_store (snd (handle_request (app cfg) user w)) = cache_store w /\
  exists rest,
    calls (snd (handle_request (app cfg) user w)) =
    calls w ++ profile_url cfg user :: rest.
Proof.
  rewrite dispatch_is_undecorated.
  destruct (get_profile_effects cfg user w) as (_ & Hc & Hl).
  destruct (get_profile cfg user w) as [[r|e] w']; simpl in *; auto.
Qed.

(** The memoized function itself does what the decorator promises: called
    again within 300 seconds it answers from the cache and issues no GET. *)
Theorem memoized_function_hits (cfg : config) (user : string) (w w1 : world)
    (r : reply) (t : Z) :
  cache_store w !! user = None ->
  get_profile_memoized cfg user w = (Ok r, w1) ->
  t < now w + 300 ->
  get_profile_memoized cfg user (at_time t w1) = (Ok r, at_time t w1).
Proof.
  intros Hmiss Hfirst Ht.
  unfold get_profile_memoized, module_body, route, memoize in *. simpl in *.
  unfold bind, cache_get, cache_set, ret in *. simpl in *.
  rewrite Hmiss in Hfirst.
  destruct (get_profile_effects cfg user w) as (Hn & Hc & _).
  destruct (get_profile cfg user w) as [[r0|e] w0]; simpl in *;
    [|discriminate Hfirst].
  injection Hfirst as <- <-. simpl.
  rewrite lookup_insert_eq, Hn.
  destruct (Z.ltb_spec t (now w + 300)); [reflexivity|lia].
Qed.

(** C1 fails: two requests for "octocat" ten seconds apart, against an
    upstream that answers 200, give the same reply, and the second issues
    both GET calls again; nothing was stored in the cache. *)
Theorem second_request_refetches :
  let w0 := fresh_world octocat_upstream in
  let first := handle_request (app default_config) "octocat" w0 in
  let second := handle_request (app default_config) "octocat" (at_time 10 (snd first)) in
  status (fst first) = 200 /\
  fst second = fst first /\
  calls (snd first) =
    ["https://api.github.com/users/octocat";
     "https://api.github.com/users/octocat/repos"] /\
  calls (snd second) =
    ["https://api.github.com/users/octocat";
     "https://api.github.com/users/octocat/repos";
     "https://api.github.com/users/octocat";
     "https://api.github.com/users/octocat/repos"] /\
  cache_store (snd second) = ∅.
Proof. repeat split. Qed.

(** * The calculator on documents of any shape *)

Section Documents.

Import Binary64 Rounding RoundingFacts.

Lemma fold_sum_raise (key : string) (items : list json) (e : exn) :
  fold_left (sum_step key) items (Raise e) = Raise e.
Proof. induction items as [|i l IH]; [reflexivity|exact IH]. Qed.

Lemma sum_step_summable (key : string) (a : Z) (item : json) :
  summable key item = true ->
  sum_step key (Ok a) item = Ok (a + count_in key item).
Proof.
  destruct item as [| | | | |fields]; try discriminate.
  unfold summable, countable, count_in, count_of, sum_step, py_get.
  cbn [rbind].
  destruct (assoc_get fields key) as [[]|]; try discriminate; intros _;
    cbn [num_value]; reflexivity.
Qed.

Lemma sum_step_unsummable (key : string) (a : Z) (item : json) :
  summable key item = false ->
  exists e, sum_step key (Ok a) item = Raise e /\
            (e = TypeError \/ e = AttributeError).
Proof.
  destruct item as [| | | | |fields]; intros H;
    try (exists AttributeError; split; [reflexivity|now right]).
  unfold summable, countable in H. unfold sum_step, py_get. cbn [rbind].
  destruct (assoc_get fields key) as [[]|]; try discriminate H;
    exists TypeError; split; try reflexivity; now left.
Qed.

Lemma fold_sum_total (key : string) (items : list json) :
  forall a, forallb (summable key) items = true ->
  fold_left (sum_step key) items (Ok a) = Ok (a + total_of items key).
Proof.
  unfold total_of.
  induction items as [|i l IH]; intros a H; cbn [fold_left map fold_right].
  - f_equal. lia.
  - cbn [forallb] in H. apply andb_true_iff in H. destruct H as [Hi Hl].
    rewrite (sum_step_summable key a i Hi), (IH _ Hl). f_equal. lia.
Qed.

Lemma fold_sum_fails (key : string) (items : list json) :
  forall a, forallb (summable key) items = false ->
  exists e, fold_left (sum_step key) items (Ok a) = Raise e /\
            (e = TypeError \/ e = AttributeError).
Proof.
  induction items as [|i l IH]; intros a H; cbn [forallb fold_left] in *;
    [discriminate H|].
  destruct (summable key i) eqn:Hi.
  - rewrite (sum_step_summable key a i Hi). apply IH. exact H.
  - destruct (sum_step_unsummable key a i Hi) as (e & -> & He).
    exists e. split; [apply fold_sum_raise|exact He].
Qed.

Lemma forallb_summable_repo (items : list json) :
  forallb summable_repo items =
  forallb (summable "stargazers_count") items &&
  forallb (summable "forks_count") items.
Proof.
  induction items as [|i l IH]; [reflexivity|].
  cbn [forallb]. rewrite IH. unfold summable_repo.
  destruct (summable "stargazers_count" i), (summable "forks_count" i),
    (forallb (summable "stargazers_count") l); reflexivity.
Qed.

(** Lines 31 to 37 on the two counts as read and the two sums. *)
Lemma weigh_counts (fv pv : json) (s t : Z) :
  (let? t1 := py_mul fv 3 in
   let? t2 := py_mul pv 2 in
   let? s12 := py_add t1 t2 in
   let? s123 := py_add s12 (JInt (s * 4)) in
   let? raw := py_add s123 (JInt (t * 1)) in
   normalize raw)%result =
  if is_number fv && is_number pv
  then score (raw_score (num_value fv) (num_value pv) s t)
  else Raise TypeError.
Proof. destruct fv, pv; reflexivity. Qed.

Lemma default_is_number (fields : list (string * json)) (key : string) :
  is_number match assoc_get fields key with
            | Some v => v
            | None => JInt 0
            end = countable fields key.
Proof. unfold countable. destruct (assoc_get fields key); reflexivity. Qed.

Lemma default_num_value (fields : list (string * json)) (key : string) :
  num_value match assoc_get fields key with
            | Some v => v
            | None => JInt 0
            end = count_of fields key.
Proof. unfold count_of. destruct (assoc_get fields key); reflexivity. Qed.

(** The calculator on a profile dict and an iterable [repos_data]. *)
Lemma calculate_gitworth_dict (fields : list (string * json)) (rd : json)
    (items : list json) :
  py_iter rd = Ok items ->
  (well_formed fields items = true ->
   calculate_gitworth (JObj fields) rd = score (weighted_sum fields items)) /\
  (well_formed fields items = false ->
   exists e, calculate_gitworth (JObj fields) rd = Raise e /\
             (e = TypeError \/ e = AttributeError)) /\
  (forallb summable_repo items = true ->
   well_formed fields items = false ->
   calculate_gitworth (JObj fields) rd = Raise TypeError).
Proof.
  intros Hit.
  assert (E : calculate_gitworth (JObj fields) rd =
              (let? stars := fold_left (sum_step "stargazers_count") items (Ok 0) in
               let? forks := fold_left (sum_step "forks_count") items (Ok 0) in
               if countable fields "followers" && countable fields "public_repos"
               then score (raw_score (count_of fields "followers")
                                     (count_of fields "public_repos") stars forks)
               else Raise TypeError)%result).
  { unfold calculate_gitworth, sum_field. cbn [py_get rbind]. rewrite Hit.
    cbn [rbind].
    destruct (fold_left (sum_step "stargazers_count") items (Ok 0)) as [s|e];
      [|reflexivity].
    destruct (fold_left (sum_step "forks_count") items (Ok 0)) as [t|e];
      [|reflexivity].
    cbn [rbind]. rewrite weigh_counts, !default_is_number, !default_num_value.
    reflexivity. }
  rewrite E. unfold well_formed, weighted_sum. rewrite forallb_summable_repo.
  destruct (forallb (summable "stargazers_count") items) eqn:Hs.
  - rewrite (fold_sum_total _ _ 0 Hs). cbn [rbind].
    destruct (forallb (summable "forks_count") items) eqn:Hf.
    + rewrite (fold_sum_total _ _ 0 Hf). cbn [rbind]. rewrite !Z.add_0_l.
      rewrite !andb_true_r.
      destruct (countable fields "followers" && countable fields "public_repos").
      * repeat split; discriminate.
      * repeat split; try discriminate; eauto.
    + destruct (fold_sum_fails _ _ 0 Hf) as (e & -> & He). cbn [rbind].
      rewrite !andb_false_r. repeat split; try discriminate. eauto.
  - destruct (fold_sum_fails _ _ 0 Hs) as (e & -> & He). cbn [rbind].
    rewrite andb_false_l, !andb_false_r.
    repeat split; try discriminate. eauto.
Qed.

Lemma py_iter_errors (rd : json) (e : exn) : py_iter rd = Raise e -> e = TypeError.
Proof. destruct rd; intros H; try discriminate H; now injection H. Qed.

Lemma calculate_gitworth_no_iter (fields : list (string * json)) (rd : json)
    (e : exn) :
  py_iter rd = Raise e -> calculate_gitworth (JObj fields) rd = Raise TypeError.
Proof.
  intros H. rewrite (py_iter_errors rd e H) in H.
  unfold calculate_gitworth, sum_field. cbn [py_get rbind]. rewrite H.
  reflexivity.
Qed.

Lemma calculate_gitworth_no_dict (pd rd : json) :
  (forall fields, pd <> JObj fields) ->
  calculate_gitworth pd rd = Raise AttributeError.
Proof.
  intros H. destruct pd; try reflexivity. exfalso. now apply (H fields).
Qed.

(** What [score] does on every integer. *)
Lemma score_cases (r : Z) :
  (OVERFLOW_BOUND <= Z.abs r /\ score r = Raise OverflowError) \/
  (10000 <= r < OVERFLOW_BOUND /\ score r = Ok (PInt 100)) \/
  (- OVERFLOW_BOUND < r < 10000 /\
   score r = Ok (PFloat (unclamped r)) /\
   unclamped r <> S754_nan /\
   float_lt (unclamped r) hundred = true).
Proof.
  destruct (Z_lt_le_dec (Z.abs r) OVERFLOW_BOUND) as [Hb|Hb];
    [|left; split; [exact Hb|apply score_overflow; exact Hb]].
  right. destruct (Z_lt_le_dec r 10000) as [Hlt|Hge];
    [|left; split; [lia|apply score_saturated; lia]].
  right. split; [lia|].
  destruct (Z_lt_le_dec r 0) as [Hneg|Hpos].
  - destruct (score_negative r ltac:(lia)) as [E Hs]. split; [exact E|].
    split; [intros N; rewrite N in Hs; exact Hs|].
    apply negative_lt_hundred. exact Hs.
  - destruct (small_facts r ltac:(lia)) as (E & _ & Hl & _). split; [exact E|].
    split; [|exact Hl]. intros N. rewrite N in Hl. discriminate Hl.
Qed.

(** The exceptions of the calculator, on all documents. *)
Lemma calculator_raises (pd rd : json) (e : exn) :
  calculate_gitworth pd rd = Raise e -> calculator_error e = true.
Proof.
  destruct pd as [| | | | |fields]; try (intros H; injection H as <-; reflexivity).
  destruct (py_iter rd) as [items|e0] eqn:Hit.
  - destruct (calculate_gitworth_dict fields rd items Hit) as (Hok & Hbad & _).
    destruct (well_formed fields items).
    + rewrite (Hok eq_refl).
      destruct (score_cases (weighted_sum fields items))
        as [[_ ->]|[[_ ->]|(_ & -> & _)]]; intros H; try discriminate H.
      injection H as <-. reflexivity.
    + destruct (Hbad eq_refl) as (e1 & -> & [->| ->]); intros H;
        injection H as <-; reflexivity.
  - rewrite (calculate_gitworth_no_iter fields rd e0 Hit). intros H.
    injection H as <-. reflexivity.
Qed.

(** A returned value comes from well-formed documents. *)
Lemma calculator_returns (pd rd : json) (v : pynum) :
  calculate_gitworth pd rd = Ok v ->
  exists fields items,
    pd = JObj fields /\ py_iter rd = Ok items /\
    well_formed fields items = true /\
    score (weighted_sum fields items) = Ok v.
Proof.
  destruct pd as [| | | | |fields]; try discriminate.
  destruct (py_iter rd) as [items|e0] eqn:Hit.
  - destruct (calculate_gitworth_dict fields rd items Hit) as (Hok & Hbad & _).
    destruct (well_formed fields items) eqn:Hw.
    + rewrite (Hok eq_refl). intros H. exists fields, items. repeat split; assumption.
    + destruct (Hbad eq_refl) as (e1 & -> & _). discriminate.
  - rewrite (calculate_gitworth_no_iter fields rd e0 Hit). discriminate.
Qed.

End Documents.

(** * Further properties of the score *)

Section Scores.

Import Binary64 Rounding RoundingFacts.

Lemma overflow_bound_large : 10000 < OVERFLOW_BOUND.
Proof. reflexivity. Qed.

Lemma unclamped_nonneg (r : Z) :
  0 <= r < 10000 -> num_leb (PInt 0) (PFloat (unclamped r)) = true.
Proof.
  intros H. destruct r as [|a|a]; try lia; [reflexivity|].
  destruct (unclamped_is_hundredth a ltac:(lia)) as [-> _].
  destruct (quotient_shape a ltac:(lia)) as (m & e & -> & _ & He & _).
  destruct e as [|k|k]; try lia. reflexivity.
Qed.

Lemma unclamped_le_minus_100 (r : Z) :
  - OVERFLOW_BOUND < r <= -10000 ->
  num_leb (PFloat (unclamped r)) (PInt (-100)) = true.
Proof.
  intros [Hlo Hhi]. destruct r as [|a|a]; try lia.
  unfold unclamped, scaled, ieee_div_int. change MAX_POSSIBLE_SCORE with 10000.
  simpl exact_int.
  pose proof (SFdiv_ge true false a 10000 1 (digits_10000 a) ltac:(lia) ltac:(lia))
    as Hge.
  pose proof (SFdiv_sign true false a 10000) as Hs. simpl xorb in Hs.
  destruct (float_mul_hundred_ge true _ Hs Hge) as [Hs1 Hg1].
  destruct (round2_ge true _ Hs1 Hg1) as [Hs2 Hg2].
  destruct (round2 _) as [sg|sg| |sg m e]; simpl in Hs2, Hg2; try contradiction;
    subst sg; [reflexivity|].
  destruct Hg2 as [_ Hv]. unfold num_leb, float_cmp_int.
  destruct e as [|k|k].
  - simpl in Hv. change (2 ^ 0) with 1.
    destruct (Z.compare_spec (Z.neg m * 1) (-100)); try reflexivity. lia.
  - destruct (Z.ltb_spec (Z.pos k) 0) as [|_]; [lia|].
    destruct (Z.compare_spec (Z.neg m * 2 ^ Z.pos k) (-100)); try reflexivity.
    lia.
  - destruct (Z.ltb_spec (Z.neg k) 0) as [_|]; [|lia].
    change (- Z.neg k) with (Z.pos k) in Hv.
    change (Z.pow_pos 2 k) with (2 ^ Z.pos k).
    destruct (Z.compare_spec (Z.neg m) (-100 * 2 ^ Z.pos k)); try reflexivity.
    lia.
Qed.

(** Hundredths that differ round to floats that differ. *)
Lemma quotient_injective (a a' : positive) :
  Z.pos a < Z.pos a' -> Z.pos a' <= 2 ^ 50 ->
  ieee_div_int (Z.pos a) 100 <> ieee_div_int (Z.pos a') 100.
Proof.
  intros Hlt Hb E.
  destruct (quotient_shape a ltac:(lia)) as (m & e & Ea & _ & He & Hp & Hlo & _).
  destruct (quotient_shape a' Hb) as (m' & e' & Ea' & _ & _ & _ & _ & Hhi).
  rewrite Ea, Ea' in E. injection E as <- <-.
  assert (Hd : 1 * 2 ^ (- e) <= (Z.pos a' - Z.pos a) * 2 ^ (- e))
    by (apply Z.mul_le_mono_nonneg_r; lia).
  lia.
Qed.

Lemma score_injective (r r' : Z) :
  0 <= r < r' -> r' < 10000 -> score r <> score r'.
Proof.
  intros [H0 Hlt] Hb.
  destruct r' as [|a'|a']; try lia.
  destruct (small_positive_facts a' Hb) as (-> & _).
  destruct r as [|a|a]; try lia.
  - destruct (quotient_shape a' ltac:(lia)) as (m & e & -> & _).
    vm_compute. discriminate.
  - destruct (small_positive_facts a ltac:(lia)) as (-> & _).
    intros E. injection E as E. revert E. apply quotient_injective; lia.
Qed.

End Scores.

Section PermutedRepositories.

Lemma forallb_permutation (test : json -> bool) (l l' : list json) :
  Permutation l l' -> forallb test l = forallb test l'.
Proof.
  induction 1 as [|x l l' _ IH|x y l|l l' l'' _ IH1 _ IH2]; cbn [forallb].
  - reflexivity.
  - now rewrite IH.
  - destruct (test x), (test y); reflexivity.
  - now rewrite IH1.
Qed.

Lemma total_of_permutation (key : string) (l l' : list json) :
  Permutation l l' -> total_of l key = total_of l' key.
Proof.
  unfold total_of.
  induction 1 as [|x l l' _ IH|x y l|l l' l'' _ IH1 _ IH2];
    cbn [map fold_right] in *; lia.
Qed.

End PermutedRepositories.

(** ** The outcomes of the calculator *)

(** X1: on a profile dict and a repository list the calculator returns a
    value exactly when every count that is present is a number, every entry
    of the list is a dict, and the weighted sum is below the overflow bound in
    magnitude.  Beyond the bound it raises [OverflowError]; on other
    documents it raises [TypeError] or [AttributeError]. *)
Theorem returns_iff_well_formed (fields : list (string * json)) (items : list json) :
  ((exists v, calculate_gitworth (JObj fields) (JArr items) = Ok v) <->
   well_formed fields items = true /\
   Z.abs (weighted_sum fields items) < OVERFLOW_BOUND) /\
  (well_formed fields items = true ->
   OVERFLOW_BOUND <= Z.abs (weighted_sum fields items) ->
   calculate_gitworth (JObj fields) (JArr items) = Raise OverflowError) /\
  (well_formed fields items = false ->
   calculate_gitworth (JObj fields) (JArr items) = Raise TypeError \/
   calculate_gitworth (JObj fields) (JArr items) = Raise AttributeError).
Proof.
  destruct (calculate_gitworth_dict fields (JArr items) items eq_refl)
    as (Hok & Hbad & _).
  destruct (well_formed fields items).
  - rewrite (Hok eq_refl). clear Hok Hbad.
    destruct (score_cases (weighted_sum fields items))
      as [[Hb E]|[[Hb E]|(Hb & E & _)]]; rewrite E.
    + split; [split|split; [reflexivity|discriminate]].
      * intros [v Hv]. discriminate Hv.
      * intros [_ H]. lia.
    + split; [split|split; [intros _ H; lia|discriminate]]; eauto.
      intros _. split; [reflexivity|lia].
    + pose proof overflow_bound_large as Hl.
      split; [split|split; [intros _ H; lia|discriminate]]; eauto.
      intros _. split; [reflexivity|lia].
  - destruct (Hbad eq_refl) as (e & E & He). rewrite E.
    split; [split|split; [discriminate|]].
    + intros [v Hv]. discriminate Hv.
    + intros [H _]. discriminate H.
    + intros _. destruct He as [-> | ->]; auto.
Qed.

(** X2: on well-formed documents within the overflow bound the calculator
    returns the integer 100 exactly when the weighted sum has reached 10000,
    and a float below that. *)
Theorem integer_exactly_when_saturated (fields : list (string * json))
    (items : list json) :
  well_formed fields items = true ->
  Z.abs (weighted_sum fields items) < OVERFLOW_BOUND ->
  (calculate_gitworth (JObj fields) (JArr items) = Ok (PInt 100) <->
   10000 <= weighted_sum fields items) /\
  (weighted_sum fields items < 10000 ->
   exists x, calculate_gitworth (JObj fields) (JArr items) = Ok (PFloat x)).
Proof.
  intros Hw Hb.
  destruct (calculate_gitworth_dict fields (JArr items) items eq_refl) as (Hok & _).
  rewrite (Hok Hw).
  destruct (score_cases (weighted_sum fields items))
    as [[Hc E]|[[Hc E]|(Hc & E & _)]]; rewrite E; [lia| |].
  - split; [split; [intros _; lia|reflexivity]|lia].
  - split; [split; [discriminate|lia]|eauto].
Qed.

Lemma integer_exactly_when_saturated_witness :
  (calculate_gitworth octocat_profile octocat_repos = Ok (PInt 100) <->
   10000 <= 655) /\
  (655 < 10000 ->
   exists x, calculate_gitworth octocat_profile octocat_repos = Ok (PFloat x)).
Proof.
  apply (integer_exactly_when_saturated
           [("login", JStr "octocat"); ("name", JStr "The Octocat");
            ("followers", JInt 100); ("public_repos", JInt 20)]
           [JObj [("stargazers_count", JInt 50); ("forks_count", JInt 10)];
            JObj [("stargazers_count", JInt 25); ("forks_count", JInt 5)]]);
    reflexivity.
Defined.

(** X3: a weighted sum that is not negative and below the overflow bound
    gives a score between 0 and 100. *)
Theorem score_between_0_and_100 (fields : list (string * json))
    (items : list json) :
  well_formed fields items = true ->
  0 <= weighted_sum fields items < OVERFLOW_BOUND ->
  exists v,
    calculate_gitworth (JObj fields) (JArr items) = Ok v /\
    num_leb (PInt 0) v = true /\ num_leb v (PInt 100) = true.
Proof.
  intros Hw Hb.
  destruct (calculate_gitworth_dict fields (JArr items) items eq_refl) as (Hok & _).
  rewrite (Hok Hw).
  destruct (Z_lt_le_dec (weighted_sum fields items) 10000) as [Hlt|Hge].
  - destruct (small_facts (weighted_sum fields items) ltac:(lia))
      as (E & _ & _ & Hle).
    exists (PFloat (unclamped (weighted_sum fields items))).
    repeat split; try assumption. apply unclamped_nonneg. lia.
  - exists (PInt 100). rewrite score_saturated by lia.
    repeat split; reflexivity.
Qed.

Lemma score_between_0_and_100_witness :
  exists v,
    calculate_gitworth octocat_profile octocat_repos = Ok v /\
    num_leb (PInt 0) v = true /\ num_leb v (PInt 100) = true.
Proof.
  apply (score_between_0_and_100
           [("login", JStr "octocat"); ("name", JStr "The Octocat");
            ("followers", JInt 100); ("public_repos", JInt 20)]
           [JObj [("stargazers_count", JInt 50); ("forks_count", JInt 10)];
            JObj [("stargazers_count", JInt 25); ("forks_count", JInt 5)]]);
    [reflexivity|].
  split; [vm_compute; discriminate|reflexivity].
Defined.

(** X4: a weighted sum from 0 to 9999 gives the float nearest to a hundredth
    of it: the two roundings of [(raw / 10000) * 100] leave no trace after
    [round(..., 2)]. *)
Theorem score_is_nearest_hundredth (fields : list (string * json))
    (items : list json) :
  well_formed fields items = true ->
  0 <= weighted_sum fields items < 10000 ->
  calculate_gitworth (JObj fields) (JArr items) =
  Ok (PFloat (Binary64.ieee_div_int (weighted_sum fields items) 100)).
Proof.
  intros Hw Hb.
  destruct (calculate_gitworth_dict fields (JArr items) items eq_refl) as (Hok & _).
  rewrite (Hok Hw).
  destruct (weighted_sum fields items) as [|a|a]; try lia; [reflexivity|].
  apply small_positive_facts. lia.
Qed.

Lemma score_is_nearest_hundredth_witness :
  calculate_gitworth octocat_profile octocat_repos =
  Ok (PFloat (Binary64.ieee_div_int 655 100)).
Proof.
  apply (score_is_nearest_hundredth
           [("login", JStr "octocat"); ("name", JStr "The Octocat");
            ("followers", JInt 100); ("public_repos", JInt 20)]
           [JObj [("stargazers_count", JInt 50); ("forks_count", JInt 10)];
            JObj [("stargazers_count", JInt 25); ("forks_count", JInt 5)]]);
    [reflexivity|].
  split; [vm_compute; discriminate|reflexivity].
Defined.

(** X5: a weighted sum from -10000 down to the overflow bound gives a float
    at or below -100: the cap at 100 has no counterpart below. *)
Theorem no_floor_at_minus_100 (fields : list (string * json)) (items : list json) :
  well_formed fields items = true ->
  - OVERFLOW_BOUND < weighted_sum fields items <= -10000 ->
  exists x,
    calculate_gitworth (JObj fields) (JArr items) = Ok (PFloat x) /\
    num_leb (PFloat x) (PInt (-100)) = true.
Proof.
  intros Hw Hb.
  destruct (calculate_gitworth_dict fields (JArr items) items eq_refl) as (Hok & _).
  rewrite (Hok Hw).
  destruct (score_negative (weighted_sum fields items) ltac:(lia)) as [E _].
  exists (unclamped (weighted_sum fields items)). split; [exact E|].
  apply unclamped_le_minus_100. exact Hb.
Qed.

Lemma no_floor_at_minus_100_witness :
  exists x,
    calculate_gitworth (JObj [("followers", JInt (-4000))]) (JArr []) =
      Ok (PFloat x) /\
    num_leb (PFloat x) (PInt (-100)) = true.
Proof.
  apply (no_floor_at_minus_100 [("followers", JInt (-4000))] []);
    [reflexivity|].
  split; [reflexivity|vm_compute; discriminate].
Defined.

(** X6: below saturation the score tells weighted sums apart: two pairs of
    documents whose weighted sums differ, both from 0 to 9999, get different
    scores. *)
Theorem distinct_sums_distinct_scores (fields fields' : list (string * json))
    (items items' : list json) :
  well_formed fields items = true ->
  well_formed fields' items' = true ->
  0 <= weighted_sum fields items < 10000 ->
  0 <= weighted_sum fields' items' < 10000 ->
  weighted_sum fields items <> weighted_sum fields' items' ->
  calculate_gitworth (JObj fields) (JArr items) <>
  calculate_gitworth (JObj fields') (JArr items').
Proof.
  intros Hw Hw' Hb Hb' Hne.
  destruct (calculate_gitworth_dict fields (JArr items) items eq_refl) as (Hok & _).
  destruct (calculate_gitworth_dict fields' (JArr items') items' eq_refl)
    as (Hok' & _).
  rewrite (Hok Hw), (Hok' Hw').
  destruct (Z_lt_le_dec (weighted_sum fields items) (weighted_sum fields' items'))
    as [Hlt|Hge].
  - apply score_injective; lia.
  - intros E. symmetry in E. revert E. apply score_injective; lia.
Qed.

Lemma distinct_sums_distinct_scores_witness :
  calculate_gitworth (JObj [("followers", JInt 1)]) (JArr []) <>
  calculate_gitworth (JObj []) (JArr [JObj [("stargazers_count", JInt 1)]]).
Proof.
  apply (distinct_sums_distinct_scores
           [("followers", JInt 1)] [] [] [JObj [("stargazers_count", JInt 1)]]);
    try reflexivity; try (split; [vm_compute; discriminate|reflexivity]).
  vm_compute. discriminate.
Defined.

(** X7: on two documents of whatever shape whose numbers are integers or
    booleans, the calculator raises nothing but [TypeError],
    [AttributeError] and [OverflowError]. *)
Theorem raises_only_calculator_errors (profile_data repos_data : json) (e : exn) :
  calculate_gitworth profile_data repos_data = Raise e ->
  e = TypeError \/ e = AttributeError \/ e = OverflowError.
Proof.
  intros H. apply calculator_raises in H.
  destruct e; try discriminate H; auto.
Qed.

Lemma raises_only_calculator_errors_witness :
  TypeError = TypeError \/ TypeError = AttributeError \/ TypeError = OverflowError.
Proof.
  apply (raises_only_calculator_errors null_followers_profile (JArr []) TypeError).
  reflexivity.
Defined.

(** X8: on two documents of whatever shape whose numbers are integers or
    booleans, a returned score is the integer 100 or a float below 100 that
    is not NaN. *)
Theorem score_is_100_or_below (profile_data repos_data : json) (v : pynum) :
  calculate_gitworth profile_data repos_data = Ok v ->
  v = PInt 100 \/
  exists x, v = PFloat x /\ x <> S754_nan /\
            Binary64.float_lt x Binary64.hundred = true.
Proof.
  intros H.
  destruct (calculator_returns _ _ _ H) as (fields & items & _ & _ & _ & Hs).
  destruct (score_cases (weighted_sum fields items))
    as [[_ E]|[[_ E]|(_ & E & Hn & Hl)]]; rewrite E in Hs;
    [discriminate Hs| |]; injection Hs as <-; eauto.
Qed.

Lemma score_is_100_or_below_witness :
  PFloat (S754_finite false 7374644389819187 (-50)) = PInt 100 \/
  exists x, PFloat (S754_finite false 7374644389819187 (-50)) = PFloat x /\
            x <> S754_nan /\ Binary64.float_lt x Binary64.hundred = true.
Proof.
  apply (score_is_100_or_below octocat_profile octocat_repos).
  vm_compute. reflexivity.
Defined.

(** X9: documents of the wrong type.  A profile that is not a dict raises
    [AttributeError]; with a profile dict, repository data that is null, a
    boolean or a number raises [TypeError], and a dict or a string that is
    not empty raises [AttributeError], its keys or characters having no
    [get]. *)
Theorem documents_of_wrong_type :
  (forall profile_data repos_data,
     (forall fields, profile_data <> JObj fields) ->
     calculate_gitworth profile_data repos_data = Raise AttributeError) /\
  (forall fields repos_data,
     repos_data = JNull \/ (exists b, repos_data = JBool b) \/
     (exists z, repos_data = JInt z) ->
     calculate_gitworth (JObj fields) repos_data = Raise TypeError) /\
  (forall fields entry rest,
     calculate_gitworth (JObj fields) (JObj (entry :: rest)) =
     Raise AttributeError) /\
  (forall fields c s,
     calculate_gitworth (JObj fields) (JStr (String c s)) = Raise AttributeError).
Proof.
  split; [exact calculate_gitworth_no_dict|]. split; [|split].
  - intros fields rd [->|[[b ->]|[z ->]]];
      apply (calculate_gitworth_no_iter fields _ TypeError); reflexivity.
  - intros fields entry rest.
    unfold calculate_gitworth, sum_field. cbn [py_get rbind py_iter map fold_left].
    assert (E : sum_step "stargazers_count" (Ok 0) (JStr (fst entry)) =
                Raise AttributeError) by reflexivity.
    rewrite E, fold_sum_raise. reflexivity.
  - intros fields c s.
    unfold calculate_gitworth, sum_field. cbn [py_get rbind py_iter].
    unfold chars_of. cbn [list_ascii_of_string map fold_left].
    assert (E : sum_step "stargazers_count" (Ok 0) (JStr (String c EmptyString)) =
                Raise AttributeError) by reflexivity.
    rewrite E, fold_sum_raise. reflexivity.
Qed.

(** X10: a count of the profile that is present and not a number is not read
    as 0: with a repository list the sums accept, a null, a string, a list
    or a dict under [followers] or [public_repos] raises [TypeError]. *)
Theorem non_numeric_count_raises (fields : list (string * json))
    (items : list json) (key : string) (v : json) :
  key = "followers" \/ key = "public_repos" ->
  assoc_get fields key = Some v ->
  is_number v = false ->
  forallb summable_repo items = true ->
  calculate_gitworth (JObj fields) (JArr items) = Raise TypeError.
Proof.
  intros Hk Hg Hv Hs.
  destruct (calculate_gitworth_dict fields (JArr items) items eq_refl)
    as (_ & _ & Hbad).
  apply Hbad; [exact Hs|].
  unfold well_formed.
  assert (Hc : countable fields key = false)
    by (unfold countable; rewrite Hg; exact Hv).
  destruct Hk as [-> | ->]; rewrite Hc; [reflexivity|].
  rewrite andb_false_r. reflexivity.
Qed.

Lemma non_numeric_count_raises_witness :
  calculate_gitworth null_followers_profile (JArr []) = Raise TypeError.
Proof.
  apply (non_numeric_count_raises
           [("login", JStr "octocat"); ("followers", JNull)] [] "followers" JNull);
    try reflexivity.
  left. reflexivity.
Defined.

(** X11: with counts that are integers or booleans the order of the
    repository list does not matter: a score returned for a list is returned
    for each of its permutations. *)
Theorem repos_order_irrelevant (profile_data : json) (items items' : list json)
    (v : pynum) :
  Permutation items items' ->
  calculate_gitworth profile_data (JArr items) = Ok v ->
  calculate_gitworth profile_data (JArr items') = Ok v.
Proof.
  intros Hp H.
  destruct (calculator_returns _ _ _ H) as (fields & l & -> & Hl & Hw & Hs).
  injection Hl as <-.
  destruct (calculate_gitworth_dict fields (JArr items') items' eq_refl)
    as (Hok & _).
  assert (Hw' : well_formed fields items' = true).
  { unfold well_formed in *.
    rewrite <- (forallb_permutation summable_repo items items' Hp). exact Hw. }
  rewrite (Hok Hw'), <- Hs. unfold weighted_sum.
  rewrite !(total_of_permutation _ items items' Hp). reflexivity.
Qed.

Lemma repos_order_irrelevant_witness :
  calculate_gitworth octocat_profile
    (JArr [JObj [("stargazers_count", JInt 25); ("forks_count", JInt 5)];
           JObj [("stargazers_count", JInt 50); ("forks_count", JInt 10)]]) =
  Ok (PFloat (S754_finite false 7374644389819187 (-50))).
Proof.
  apply (repos_order_irrelevant octocat_profile
           [JObj [("stargazers_count", JInt 50); ("forks_count", JInt 10)];
            JObj [("stargazers_count", JInt 25); ("forks_count", JInt 5)]]).
  - apply perm_swap.
  - vm_compute. reflexivity.
Defined.

(** * Further properties of the request handler *)

Section Requests.

Variable cfg : config.
Variable user : string.

(** The result of the handler by the outcomes of its two calls. *)
Lemma get_profile_result (w : world) :
  fst (get_profile cfg user w) =
  match upstream w (length (calls w)) (profile_url cfg user) with
  | Failed d => Ok (jsonify_error d 500)
  | Responded rp =>
      match upstream w (S (length (calls w))) (repos_url cfg user) with
      | Failed d => Ok (jsonify_error d 500)
      | Responded rr =>
          if (status_code rp =? 200) && (status_code rr =? 200)
          then caught (success_branch rp rr)
          else if status_code rp =? 403
               then Ok (jsonify_error rate_limit_message 403)
               else Ok (jsonify_error "User not found" 404)
      end
  end.
Proof.
  destruct (upstream w (length (calls w)) (profile_url cfg user)) as [rp|d] eqn:Hp.
  - destruct (upstream w (S (length (calls w))) (repos_url cfg user))
      as [rr|d] eqn:Hr.
    + apply get_profile_both_respond. split; assumption.
    + unfold get_profile, try_except, bind, requests_get; simpl.
      rewrite Hp; simpl. rewrite length_snoc, Hr. reflexivity.
  - unfold get_profile, try_except, bind, requests_get; simpl.
    rewrite Hp. reflexivity.
Qed.

(** The GET calls of the handler. *)
Lemma get_profile_calls (w : world) :
  calls (snd (get_profile cfg user w)) =
  calls w ++
  request_calls cfg user (upstream w (length (calls w)) (profile_url cfg user)).
Proof.
  unfold get_profile, try_except, bind, requests_get, ret, lift.
  destruct (upstream w (length (calls w)) (profile_url cfg user)) as [rp|d];
    cbn [calls upstream request_calls]; [|reflexivity].
  assert (E : (calls w ++ [profile_url cfg user]) ++ [repos_url cfg user] =
              calls w ++ [profile_url cfg user; repos_url cfg user])
    by (rewrite <- app_assoc; reflexivity).
  destruct (upstream w (length (calls w ++ [profile_url cfg user]))
              (repos_url cfg user)) as [rr|d]; [|exact E].
  destruct ((status_code rp =? 200) && (status_code rr =? 200)).
  - destruct (success_branch rp rr) as [r|[]]; exact E.
  - destruct (status_code rp =? 403); exact E.
Qed.

(** What a dispatched request replies and leaves behind. *)
Lemma handle_request_reply (w : world) :
  fst (handle_request (app cfg) user w) =
  match fst (get_profile cfg user w) with
  | Ok r => r
  | Raise _ => {| body := InternalServerError; status := 500 |}
  end /\
  snd (handle_request (app cfg) user w) = snd (get_profile cfg user w).
Proof.
  rewrite dispatch_is_undecorated.
  destruct (get_profile cfg user w) as [[r|e] w']; split; reflexivity.
Qed.


(** The success branch returns the fields as read and the two totals. *)
Lemma summarize_returns (profile_data repos_data : json) (r : reply) :
  summarize profile_data repos_data = Ok r ->
  exists fields items sc,
    profile_data = JObj fields /\ py_iter repos_data = Ok items /\
    well_formed fields items = true /\
    score (weighted_sum fields items) = Ok sc /\
    r = {| body := Summary {| username := get_or_null fields "login";
                              name := get_or_null fields "name";
                              followers := get_or_null fields "followers";
                              public_repos := get_or_null fields "public_repos";
                              stars_received := total_of items "stargazers_count";
                              forks_received := total_of items "forks_count";
                              gitworth_score := sc |};
           status := 200 |}.
Proof.
  unfold summarize.
  destruct (calculate_gitworth profile_data repos_data) as [sc|e] eqn:Hc;
    [|discriminate].
  destruct (calculator_returns _ _ _ Hc) as (fields & items & -> & Hit & Hw & Hs).
  cbn [rbind py_get_none py_get]. unfold sum_field. rewrite Hit. cbn [rbind].
  assert (Hall : forallb summable_repo items = true).
  { unfold well_formed in Hw. apply andb_true_iff in Hw. apply Hw. }
  rewrite forallb_summable_repo in Hall. apply andb_true_iff in Hall.
  destruct Hall as [Hst Hfk].
  rewrite (fold_sum_total _ _ 0 Hst), (fold_sum_total _ _ 0 Hfk). cbn [rbind].
  rewrite !Z.add_0_l. intros H. injection H as <-.
  exists fields, items, sc. repeat split; assumption.
Qed.

Lemma get_or_null_count (fields : list (string * json)) (key : string) :
  countable fields key = true ->
  num_value (get_or_null fields key) = count_of fields key /\
  (is_number (get_or_null fields key) = true \/ get_or_null fields key = JNull).
Proof.
  unfold countable, get_or_null, count_of.
  destruct (assoc_get fields key) as [v|]; intros H; split; auto.
Qed.

(** What the success branch returns, and what it raises: the calculator's
    exception on two documents, or the parse error of a body. *)
Lemma success_branch_returns (rp rr : response) (r : reply) :
  success_branch rp rr = Ok r ->
  exists profile_data repos_data,
    content rp = Document profile_data /\ content rr = Document repos_data /\
    summarize profile_data repos_data = Ok r.
Proof.
  pose proof (success_branch_cases rp rr) as Hc. intros Hr.
  destruct (content rp) as [pd|d]; [|rewrite Hc in Hr; discriminate Hr].
  destruct (content rr) as [rd|d]; [|rewrite Hc in Hr; discriminate Hr].
  exists pd, rd. repeat split. rewrite <- Hc. exact Hr.
Qed.


(** X12: a request issues the profile GET and, when that call returns a
    response of whatever status, the repositories GET, in this order and
    nothing else; when the profile call fails no second call is made. *)
Theorem request_log (w : world) :
  calls (snd (handle_request (app cfg) user w)) =
  calls w ++
  request_calls cfg user (upstream w (length (calls w)) (profile_url cfg user)).
Proof.
  destruct (handle_request_reply w) as [_ ->]. apply get_profile_calls.
Qed.

(** X13: the reply depends on the upstream alone: two worlds with the same
    upstream and as many earlier calls give the same reply, whatever their
    clocks and cache stores hold. *)
Theorem reply_ignores_cache_and_clock (w w' : world) :
  upstream w' = upstream w ->
  length (calls w') = length (calls w) ->
  fst (handle_request (app cfg) user w') = fst (handle_request (app cfg) user w).
Proof.
  intros Hu Hl.
  destruct (handle_request_reply w) as [-> _].
  destruct (handle_request_reply w') as [-> _].
  rewrite !get_profile_result, Hu, Hl. reflexivity.
Qed.

(** X14: a summary comes with status 200, an error record with 403, 404 or
    500, and the reply to an escaped exception with 500. *)
Theorem reply_status_fits_body (w : world) :
  status_fits (fst (handle_request (app cfg) user w)) = true.
Proof.
  destruct (handle_request_reply w) as [-> _]. rewrite get_profile_result.
  destruct (upstream w (length (calls w)) (profile_url cfg user)) as [rp|d];
    [|reflexivity].
  destruct (upstream w (S (length (calls w))) (repos_url cfg user)) as [rr|d];
    [|reflexivity].
  destruct ((status_code rp =? 200) && (status_code rr =? 200)).
  - destruct (success_branch rp rr) as [r|e] eqn:Es.
    + destruct (success_branch_shape _ _ _ Es) as [p ->]. reflexivity.
    + destruct e; reflexivity.
  - destruct (status_code rp =? 403); reflexivity.
Qed.


(** X16: the score of a success reply is the score of the counts the reply
    shows, a null count read as 0: its two profile counts are numbers or
    null, and its stars and forks are the totals the score was computed
    from. *)
Theorem success_reply_is_consistent (w : world) (p : profile_summary) :
  body (fst (handle_request (app cfg) user w)) = Summary p ->
  (is_number (followers p) = true \/ followers p = JNull) /\
  (is_number (public_repos p) = true \/ public_repos p = JNull) /\
  score (raw_score (num_value (followers p)) (num_value (public_repos p))
                   (stars_received p) (forks_received p)) =
  Ok (gitworth_score p).
Proof.
  destruct (handle_request_reply w) as [-> _]. rewrite get_profile_result.
  destruct (upstream w (length (calls w)) (profile_url cfg user)) as [rp|d];
    [|discriminate].
  destruct (upstream w (S (length (calls w))) (repos_url cfg user)) as [rr|d];
    [|discriminate].
  destruct ((status_code rp =? 200) && (status_code rr =? 200));
    [|destruct (status_code rp =? 403); discriminate].
  destruct (success_branch rp rr) as [r|e] eqn:Es;
    [|destruct e; discriminate].
  destruct (success_branch_returns _ _ _ Es) as (pd & rd & _ & _ & Er).
  destruct (summarize_returns _ _ _ Er)
    as (fields & items & sc & _ & _ & Hw & Hs & ->).
  cbn [caught body]. intros H. injection H as <-.
  cbn [followers public_repos stars_received forks_received gitworth_score].
  unfold well_formed in Hw. apply andb_true_iff in Hw. destruct Hw as [Hw _].
  apply andb_true_iff in Hw. destruct Hw as [Hf Hp].
  destruct (get_or_null_count fields "followers" Hf) as [-> Hfn].
  destruct (get_or_null_count fields "public_repos" Hp) as [-> Hpn].
  repeat split; assumption.
Qed.


(** X18: the rate-limit reply is given exactly when both calls return a
    response and the profile status is 403; a profile status 403 followed by
    a failed repositories call gives the 500 record instead. *)
Theorem rate_limited_iff_profile_403 (w : world) :
  fst (handle_request (app cfg) user w) =
    {| body := ErrorRecord rate_limit_message; status := 403 |} <->
  exists rp rr, both_respond cfg user w rp rr /\ status_code rp = 403.
Proof.
  destruct (handle_request_reply w) as [-> _]. rewrite get_profile_result.
  unfold both_respond. split.
  - destruct (upstream w (length (calls w)) (profile_url cfg user)) as [rp|d0];
      [|discriminate].
    destruct (upstream w (S (length (calls w))) (repos_url cfg user)) as [rr|d0];
      [|discriminate].
    destruct ((status_code rp =? 200) && (status_code rr =? 200)).
    + destruct (success_branch rp rr) as [r|e] eqn:Es.
      * destruct (success_branch_shape _ _ _ Es) as [p ->]. discriminate.
      * destruct e; discriminate.
    + destruct (Z.eqb_spec (status_code rp) 403) as [E|_]; [|discriminate].
      intros _. exists rp, rr. repeat split. exact E.
  - intros (rp & rr & [-> ->] & ->). reflexivity.
Qed.

(** X19: the "User not found" reply is given exactly when both calls return
    a response, the profile status is not 403 and the two statuses are not
    both 200. *)
Theorem not_found_iff_other_statuses (w : world) :
  fst (handle_request (app cfg) user w) =
    {| body := ErrorRecord "User not found"; status := 404 |} <->
  exists rp rr,
    both_respond cfg user w rp rr /\ status_code rp <> 403 /\
    ~ (status_code rp = 200 /\ status_code rr = 200).
Proof.
  destruct (handle_request_reply w) as [-> _]. rewrite get_profile_result.
  unfold both_respond. split.
  - destruct (upstream w (length (calls w)) (profile_url cfg user)) as [rp|d0];
      [|discriminate].
    destruct (upstream w (S (length (calls w))) (repos_url cfg user)) as [rr|d0];
      [|discriminate].
    destruct (Z.eqb_spec (status_code rp) 200) as [Ep|Np];
      destruct (Z.eqb_spec (status_code rr) 200) as [Er|Nr]; cbn [andb].
    + destruct (success_branch rp rr) as [r|e] eqn:Es.
      * destruct (success_branch_shape _ _ _ Es) as [p ->]. discriminate.
      * destruct e; discriminate.
    + destruct (Z.eqb_spec (status_code rp) 403) as [E|N]; [discriminate|].
      intros _. exists rp, rr. repeat split; try assumption. intros [_ H]. auto.
    + destruct (Z.eqb_spec (status_code rp) 403) as [E|N]; [discriminate|].
      intros _. exists rp, rr. repeat split; try assumption. intros [H _]. auto.
    + destruct (Z.eqb_spec (status_code rp) 403) as [E|N]; [discriminate|].
      intros _. exists rp, rr. repeat split; try assumption. intros [H _]. auto.
  - intros (rp & rr & [-> ->] & N403 & Nboth).
    destruct (Z.eqb_spec (status_code rp) 200) as [Ep|Np];
      destruct (Z.eqb_spec (status_code rr) 200) as [Er|Nr]; cbn [andb];
      try (exfalso; apply Nboth; now split);
      destruct (Z.eqb_spec (status_code rp) 403); try contradiction; reflexivity.
Qed.

End Requests.

Lemma reply_ignores_cache_and_clock_witness :
  fst (handle_request (app default_config) "octocat"
         {| upstream := octocat_upstream; calls := []; now := 1000;
            cache_store := {[ "octocat" := (2000, jsonify_error "stale" 404) ]} |}) =
  fst (handle_request (app default_config) "octocat" (fresh_world octocat_upstream)).
Proof.
  apply (reply_ignores_cache_and_clock default_config "octocat"
           (fresh_world octocat_upstream)); reflexivity.
Defined.

Lemma success_reply_is_consistent_witness :
  (is_number (JInt 100) = true \/ JInt 100 = JNull) /\
  (is_number (JInt 20) = true \/ JInt 20 = JNull) /\
  score (raw_score 100 20 75 15) =
  Ok (PFloat (S754_finite false 7374644389819187 (-50))).
Proof.
  apply (success_reply_is_consistent default_config "octocat"
           (fresh_world octocat_upstream)
           {| username := JStr "octocat"; name := JStr "The Octocat";
              followers := JInt 100; public_repos := JInt 20;
              stars_received := 75; forks_received := 15;
              gitworth_score :=
                PFloat (S754_finite false 7374644389819187 (-50)) |}).
  vm_compute. reflexivity.
Defined.

(** A profile body that does not parse, with both statuses 200: the parse
    error is caught by the except clause. *)
Example malformed_profile_body :
  fst (handle_request (app default_config) "octocat"
         (fresh_world (two_responses
                         (malformed_response "Expecting value: line 1 column 1 (char 0)")
                         (ok_response (JArr []))))) =
  {| body := ErrorRecord "Expecting value: line 1 column 1 (char 0)";
     status := 500 |}.
Proof. reflexivity. Qed.
